(** * JSON YAML Bridge: the JSON-to-YAML emitter and the JSONL record driver

    A shallow embedding of [src/yamlConverter.ts], of the stand-alone copy
    of the converter in [scripts/json2yaml.js], of the copy of the converter
    that follows [src/extension.ts], and of [convertJsonlToYaml] in
    [src/extension.ts].

    JavaScript strings are modelled as [string]: every [ascii] stands for one
    UTF-16 code unit in the range 0..255.  The host functions the converter
    calls ([split], [join], [includes], [trim], [JSON.stringify] on a string,
    ...) are written out in module [Js]; [JSON.parse] and
    [Number.prototype.toString] stay parameters of the emitter. *)

From Stdlib Require Import String Ascii List Bool Arith Lia Sorted.
From Stdlib Require Import DecimalString.
From Stdlib Require PrimFloat.
Import ListNotations.
Local Open Scope list_scope.
Local Open Scope string_scope.
Local Open Scope nat_scope.

(* ================================================================== *)
(** ** Host string primitives *)
(* ================================================================== *)

Module Js.

Definition LF : ascii := "010"%char.
Definition DQUOTE : ascii := "034"%char.
Definition BACKSLASH : ascii := "092"%char.

(** The one-character strings: a line feed and a double quote. *)
Definition NL : string := String LF EmptyString.
Definition DQ : string := String DQUOTE EmptyString.

Definition code (c : ascii) : nat := nat_of_ascii c.

(** [String.prototype.split('\n')]: never returns the empty array. *)
Fixpoint split_lines (s : string) : list string :=
  match s with
  | EmptyString => [EmptyString]
  | String c rest =>
      if Ascii.eqb c LF then EmptyString :: split_lines rest
      else match split_lines rest with
           | [] => [String c EmptyString]
           | l :: ls => String c l :: ls
           end
  end.

(** [Array.prototype.join(sep)] on an array of strings. *)
Fixpoint join (sep : string) (l : list string) : string :=
  match l with
  | [] => EmptyString
  | [x] => x
  | x :: rest => x ++ sep ++ join sep rest
  end.

(** [String.prototype.startsWith]. *)
Definition startsWith (s p : string) : bool := String.prefix p s.

(** [String.prototype.includes]. *)
Fixpoint includes (s sub : string) : bool :=
  String.prefix sub s ||
  match s with
  | EmptyString => false
  | String _ rest => includes rest sub
  end.

(** [String.prototype.endsWith]. *)
Fixpoint endsWith (s suf : string) : bool :=
  String.eqb s suf ||
  match s with
  | EmptyString => false
  | String _ rest => endsWith rest suf
  end.

(** [' '.repeat(n)]. *)
Fixpoint repeat_space (n : nat) : string :=
  match n with
  | 0 => EmptyString
  | S k => String " "%char (repeat_space k)
  end.

(** The characters of the regular expression class [\s], which are also
    the characters [String.prototype.trim] removes: TAB, LF, VT, FF, CR,
    SPACE and NBSP (the other members lie above code unit 255). *)
Definition is_space (c : ascii) : bool :=
  let n := code c in
  (9 <=? n) && (n <=? 13) || (n =? 32) || (n =? 160).

(** The class [\d]. *)
Definition is_digit (c : ascii) : bool :=
  let n := code c in (48 <=? n) && (n <=? 57).

Fixpoint trimStart (s : string) : string :=
  match s with
  | EmptyString => EmptyString
  | String c rest => if is_space c then trimStart rest else s
  end.

Fixpoint trimEnd (s : string) : string :=
  match s with
  | EmptyString => EmptyString
  | String c rest =>
      match trimEnd rest with
      | EmptyString => if is_space c then EmptyString else String c EmptyString
      | kept => String c kept
      end
  end.

(** [String.prototype.trim]. *)
Definition trim (s : string) : string := trimEnd (trimStart s).

(** Membership of a character in a literal set. *)
Fixpoint char_in (c : ascii) (set : string) : bool :=
  match set with
  | EmptyString => false
  | String d rest => Ascii.eqb c d || char_in c rest
  end.

Fixpoint forall_chars (p : ascii -> bool) (s : string) : bool :=
  match s with
  | EmptyString => true
  | String c rest => p c && forall_chars p rest
  end.

(** Case folding of the flag [i] without the flag [u]: only the letters
    A..Z and a..z are identified; no code unit above 127 matches an ASCII
    letter. *)
Definition to_lower (c : ascii) : ascii :=
  let n := code c in
  if (65 <=? n) && (n <=? 90) then ascii_of_nat (n + 32) else c.

Fixpoint lower (s : string) : string :=
  match s with
  | EmptyString => EmptyString
  | String c rest => String (to_lower c) (lower rest)
  end.

Definition hex_digit (n : nat) : ascii :=
  if n <? 10 then ascii_of_nat (48 + n) else ascii_of_nat (87 + n).

(** The text [JSON.stringify] writes for one code unit of a string:
    the two-character escapes, [\u00xx] for the other control characters,
    the character itself otherwise.  This is the whole of it on the code
    units 0..255 of the model; the one further case of the host, a lone
    surrogate written as [\udxxx], lies above them. *)
Definition quote_char (c : ascii) : string :=
  let n := code c in
  if n =? 34 then String BACKSLASH DQ
  else if n =? 92 then String BACKSLASH (String BACKSLASH EmptyString)
  else if n =? 8 then String BACKSLASH "b"
  else if n =? 12 then String BACKSLASH "f"
  else if n =? 10 then String BACKSLASH "n"
  else if n =? 13 then String BACKSLASH "r"
  else if n =? 9 then String BACKSLASH "t"
  else if n <? 32 then
    String BACKSLASH
      (String "u"%char (String "0"%char (String "0"%char
        (String (hex_digit (n / 16)) (String (hex_digit (n mod 16)) EmptyString)))))
  else String c EmptyString.

Fixpoint quote_body (s : string) : string :=
  match s with
  | EmptyString => EmptyString
  | String c rest => quote_char c ++ quote_body rest
  end.

(** [JSON.stringify(str)] for a string argument. *)
Definition JSON_stringify (s : string) : string := DQ ++ quote_body s ++ DQ.

Fixpoint drop_last (s : string) : string :=
  match s with
  | EmptyString => EmptyString
  | String c EmptyString => EmptyString
  | String c rest => String c (drop_last rest)
  end.

(** [s.slice(1, -1)]. *)
Definition slice_1_m1 (s : string) : string :=
  match s with
  | EmptyString => EmptyString
  | String _ rest => drop_last rest
  end.

(** [arr[arr.length - 1] === s]; on the empty array the element is
    [undefined] and the test fails. *)
Definition last_is (arr : list string) (s : string) : bool :=
  match List.last (map Some arr) None with
  | Some x => String.eqb x s
  | None => false
  end.

(** [arr.push(x1, ..., xn)]: the array after the call. *)
Definition push_all (arr new : list string) : list string := List.app arr new.

(** Decimal text of a non-negative integer, as template literals print it. *)
Definition decimal (n : nat) : string := NilZero.string_of_uint (Nat.to_uint n).

End Js.

(* ================================================================== *)
(** ** Scalar classifier and string escaper

    [escapeString] and [needsQuotes] have the same text in the three
    copies of the converter. *)
(* ================================================================== *)

Definition escapeString (str : string) : string :=
  Js.slice_1_m1 (Js.JSON_stringify str).

(** [/^[\s\-:{}[\],&*#?|<>=!%@`]/.test(str)] *)
Definition starts_with_indicator (str : string) : bool :=
  match str with
  | EmptyString => false
  | String c _ => Js.is_space c || Js.char_in c "-:{}[],&*#?|<>=!%@`"
  end.

(** [/^[\d\-]/.test(str)] *)
Definition starts_like_number (str : string) : bool :=
  match str with
  | EmptyString => false
  | String c _ => Js.is_digit c || Ascii.eqb c "-"%char
  end.

(** [/^(true|false|null|yes|no|on|off)$/i.test(str)] *)
Definition is_reserved_word (str : string) : bool :=
  let l := Js.lower str in
  String.eqb l "true" || String.eqb l "false" || String.eqb l "null" ||
  String.eqb l "yes" || String.eqb l "no" || String.eqb l "on" ||
  String.eqb l "off".

(** [/^[\d\.]+$/.test(str)] *)
Definition digits_and_dots (str : string) : bool :=
  match str with
  | EmptyString => false
  | String _ _ =>
      Js.forall_chars (fun c => Js.is_digit c || Ascii.eqb c "."%char) str
  end.

Definition needsQuotes (str : string) : bool :=
  starts_with_indicator str ||
  starts_like_number str ||
  is_reserved_word str ||
  digits_and_dots str.

(* ================================================================== *)
(** ** Data model *)
(* ================================================================== *)

(** The values [valueToYaml] distinguishes.  A number is an IEEE binary64
    float; the fields of an object are listed in the order [Object.keys]
    enumerates them. *)
#[warning="-register-all"]
Inductive jsvalue : Type :=
| JNull
| JUndefined
| JBool (b : bool)
| JNumber (n : PrimFloat.float)
| JString (s : string)
| JArray (items : list jsvalue)
| JObject (fields : list (string * jsvalue)).

(** [typeof v === 'string'] *)
Definition is_string (v : jsvalue) : bool :=
  match v with
  | JString _ => true
  | _ => false
  end.

(** A thrown [Error] object: its [name] and its [message]. *)
Record exn : Type := JsError { exn_name : string; exn_message : string }.

(** [Error.prototype.toString], which a template literal applies to a caught
    error. *)
Definition exn_toString (e : exn) : string :=
  if String.eqb (exn_name e) EmptyString then exn_message e
  else if String.eqb (exn_message e) EmptyString then exn_name e
  else exn_name e ++ ": " ++ exn_message e.

(** Number of characters a JSON text needs at least for a value: one per
    node, plus the characters of every string value. *)
Fixpoint weight (v : jsvalue) : nat :=
  match v with
  | JString s => S (String.length s)
  | JArray items => S (list_sum (map weight items))
  | JObject fields => S (list_sum (map (fun kv => weight (snd kv)) fields))
  | _ => 1
  end.

(** Running out of fuel is [None]; it is the only failure of the emitter. *)
Notation "x <- e ;; k" :=
  (match e with
   | Some x => k
   | None => None
   end) (at level 61, e at next level, right associativity, only parsing).

(* ================================================================== *)
(** ** Value emitter and single-document entry point

    The text of [valueToYaml] and [jsonToYaml] is the same in the three
    copies; they differ in [formatString] and [formatMultilineYaml], which
    are parameters here, next to the two host functions. *)
(* ================================================================== *)

Module ValueEmitter.

Section Emitter.

(** [JSON.parse]: the parsed value, or the exception it throws. *)
Variable JSON_parse : string -> exn + jsvalue.
(** [Number.prototype.toString] on a finite number. *)
Variable Number_toString : PrimFloat.float -> string.
Variable formatString : string -> string.
Variable formatMultilineYaml : string -> string -> string -> list string.

Definition number_to_yaml (n : PrimFloat.float) : string :=
  if PrimFloat.is_nan n then ".nan"
  else if negb (PrimFloat.is_finite n) then
    (if PrimFloat.ltb PrimFloat.zero n then ".inf" else "-.inf")
  else Number_toString n.

(** [yaml.includes('\n') || yaml.startsWith(' ')] *)
Definition is_block (yaml : string) : bool :=
  Js.includes yaml Js.NL || Js.startsWith yaml " ".

(** The loop [for (const item of value)] of the array case; [render] is the
    recursive call at [indent + 2]. *)
Fixpoint array_items (render : jsvalue -> option string) (indentStr : string)
    (value : list jsvalue) (items : list string) : option (list string) :=
  match value with
  | [] => Some items
  | item :: rest =>
      itemYaml <- render item ;;
      array_items render indentStr rest
        (Js.push_all items
           (if is_block itemYaml
            then formatMultilineYaml itemYaml "- " indentStr
            else [indentStr ++ "- " ++ itemYaml]))
  end.

(** The text an object key is written with. *)
Definition keyStr (key : string) : string :=
  if needsQuotes key then Js.DQ ++ escapeString key ++ Js.DQ else key.

(** The loop [for (const key of keys)] of the object case. *)
Fixpoint object_items (render : jsvalue -> option string) (indentStr : string)
    (fields : list (string * jsvalue)) (items : list string)
    : option (list string) :=
  match fields with
  | [] => Some items
  | (key, keyValue) :: rest =>
      valueYaml <- render keyValue ;;
      object_items render indentStr rest
        (Js.push_all items
           (if is_block valueYaml
            then formatMultilineYaml valueYaml (keyStr key ++ ": ") indentStr
            else [indentStr ++ keyStr key ++ ": " ++ valueYaml]))
  end.

Fixpoint valueToYaml_fuel (fuel : nat) (value : jsvalue) (indent : nat)
    : option string :=
  match fuel with
  | 0 => None
  | S fuel' =>
      let indentStr := Js.repeat_space indent in
      match value with
      | JNull => Some "null"
      | JUndefined => Some "null"
      | JBool b => Some (if b then "true" else "false")
      | JNumber n => Some (number_to_yaml n)
      | JString s =>
          match JSON_parse s with
          | inr parsed =>
              if is_string parsed then Some (formatString s)
              else valueToYaml_fuel fuel' parsed indent
          | inl _ => Some (formatString s)
          end
      | JArray [] => Some "[]"
      | JArray items =>
          lines <- array_items (fun item => valueToYaml_fuel fuel' item (indent + 2))
                     indentStr items [] ;;
          Some (Js.join Js.NL lines)
      | JObject [] => Some "{}"
      | JObject fields =>
          lines <- object_items (fun v => valueToYaml_fuel fuel' v (indent + 2))
                     indentStr fields [] ;;
          Some (Js.join Js.NL lines)
      end
  end.

(** [valueToYaml(value, indent)]: [weight value] steps always suffice (see
    [valueToYaml_fuel_enough]). *)
Definition valueToYaml (value : jsvalue) (indent : nat) : string :=
  match valueToYaml_fuel (weight value) value indent with
  | Some yaml => yaml
  | None => EmptyString
  end.

(** [jsonToYaml]: the YAML text, or the [Error] it throws. *)
Definition jsonToYaml (jsonString : string) : exn + string :=
  match JSON_parse jsonString with
  | inr jsonObject => inr (valueToYaml jsonObject 0)
  | inl error =>
      inl (JsError "Error" ("Failed to parse JSON: " ++ exn_toString error))
  end.

End Emitter.

End ValueEmitter.

(* ================================================================== *)
(** ** The three copies of the string formatter and of indentation reflow *)
(* ================================================================== *)

(** [src/yamlConverter.ts], the module [src/extension.ts] imports. *)
Module YamlConverter.

(** [while (lines.length > 0 && lines[lines.length - 1] === ''
           && !endsWithNewline) lines.pop();]
    every round removes an element, so [length lines] rounds are enough. *)
Fixpoint pop_empty_lines (rounds : nat) (lines : list string)
    (endsWithNewline : bool) : list string :=
  match rounds with
  | 0 => lines
  | S k =>
      if (0 <? length lines) && Js.last_is lines EmptyString
         && negb endsWithNewline
      then pop_empty_lines k (removelast lines) endsWithNewline
      else lines
  end.

Definition formatString (value : string) : string :=
  if Js.includes value Js.NL || Js.includes value ": " then
    let lines := Js.split_lines value in
    let endsWithNewline := Js.endsWith value Js.NL in
    let lines := pop_empty_lines (length lines) lines endsWithNewline in
    "|" ++ Js.NL ++ Js.join Js.NL lines
  else
    let escaped := escapeString value in
    if needsQuotes value || negb (String.eqb escaped value)
    then Js.DQ ++ escaped ++ Js.DQ
    else value.

(** [lines[0]] exists: [split] never returns the empty array. *)
Definition formatMultilineYaml (yamlValue prefix indentStr : string)
    : list string :=
  let lines := Js.split_lines yamlValue in
  if String.eqb (List.hd EmptyString lines) "|" then
    (indentStr ++ prefix ++ "|")
      :: map (fun line => indentStr ++ "  " ++ line) (List.tl lines)
  else
    (indentStr ++ prefix) :: lines.

Section Host.
Variable JSON_parse : string -> exn + jsvalue.
Variable Number_toString : PrimFloat.float -> string.

Definition valueToYaml_fuel : nat -> jsvalue -> nat -> option string :=
  ValueEmitter.valueToYaml_fuel JSON_parse Number_toString
    formatString formatMultilineYaml.

Definition valueToYaml : jsvalue -> nat -> string :=
  ValueEmitter.valueToYaml JSON_parse Number_toString
    formatString formatMultilineYaml.

Definition jsonToYaml : string -> exn + string :=
  ValueEmitter.jsonToYaml JSON_parse Number_toString
    formatString formatMultilineYaml.
End Host.

End YamlConverter.

(** [/^\|[+\-]?$/]: a block-literal marker line, with or without a chomping
    indicator. *)
Definition is_block_marker (line : string) : bool :=
  String.eqb line "|" || String.eqb line "|+" || String.eqb line "|-".

(** The copy of the converter that follows the text of [src/extension.ts]. *)
Module ConverterCopy.

Definition formatString (value : string) : string :=
  if Js.includes value Js.NL || Js.includes value ": " then
    let lines := Js.split_lines value in
    let chompingIndicator :=
      if Js.endsWith value Js.NL then
        (if Js.endsWith value (Js.NL ++ Js.NL) then "+" else EmptyString)
      else "-" in
    let lines :=
      if (0 <? length lines) && Js.last_is lines EmptyString
      then removelast lines else lines in
    "|" ++ chompingIndicator ++ Js.NL ++ Js.join Js.NL lines
  else
    let escaped := escapeString value in
    if String.eqb value EmptyString || needsQuotes value
       || negb (String.eqb escaped value)
    then Js.DQ ++ escaped ++ Js.DQ
    else value.

Definition formatMultilineYaml (yamlValue prefix indentStr : string)
    : list string :=
  let lines := Js.split_lines yamlValue in
  if is_block_marker (List.hd EmptyString lines) then
    (indentStr ++ prefix ++ List.hd EmptyString lines)
      :: map (fun line => indentStr ++ "  " ++ line) (List.tl lines)
  else
    (indentStr ++ prefix) :: lines.

Section Host.
Variable JSON_parse : string -> exn + jsvalue.
Variable Number_toString : PrimFloat.float -> string.

Definition valueToYaml_fuel : nat -> jsvalue -> nat -> option string :=
  ValueEmitter.valueToYaml_fuel JSON_parse Number_toString
    formatString formatMultilineYaml.

Definition valueToYaml : jsvalue -> nat -> string :=
  ValueEmitter.valueToYaml JSON_parse Number_toString
    formatString formatMultilineYaml.

Definition jsonToYaml : string -> exn + string :=
  ValueEmitter.jsonToYaml JSON_parse Number_toString
    formatString formatMultilineYaml.
End Host.

End ConverterCopy.

(** [scripts/json2yaml.js], the stand-alone copy of the converter. *)
Module Json2Yaml.

(** [line.replace(/[\x00-\x08\x0b-\x1f\x7f]/g, ' ')] *)
Definition replace_unsupported_char (c : ascii) : ascii :=
  let n := Js.code c in
  if (n <=? 8) || (11 <=? n) && (n <=? 31) || (n =? 127) then " "%char else c.

Fixpoint replace_unsupported (line : string) : string :=
  match line with
  | EmptyString => EmptyString
  | String c rest =>
      String (replace_unsupported_char c) (replace_unsupported rest)
  end.

Definition formatString (value : string) : string :=
  if Js.includes value Js.NL || Js.includes value ": " then
    let lines := map replace_unsupported (Js.split_lines value) in
    let chompingIndicator :=
      if Js.endsWith value Js.NL then
        (if Js.endsWith value (Js.NL ++ Js.NL) then "+" else EmptyString)
      else "-" in
    let lines :=
      if (0 <? length lines) && Js.last_is lines EmptyString
      then removelast lines else lines in
    "|" ++ chompingIndicator ++ Js.NL ++ Js.join Js.NL lines
  else
    let escaped := escapeString value in
    if String.eqb value EmptyString || needsQuotes value
       || negb (String.eqb escaped value)
    then Js.DQ ++ escaped ++ Js.DQ
    else value.

Definition formatMultilineYaml (yamlValue prefix indentStr : string)
    : list string :=
  let lines := Js.split_lines yamlValue in
  if is_block_marker (List.hd EmptyString lines) then
    (indentStr ++ prefix ++ List.hd EmptyString lines)
      :: map (fun line => indentStr ++ "  " ++ line) (List.tl lines)
  else
    (indentStr ++ prefix) :: lines.

Section Host.
Variable JSON_parse : string -> exn + jsvalue.
Variable Number_toString : PrimFloat.float -> string.

Definition valueToYaml_fuel : nat -> jsvalue -> nat -> option string :=
  ValueEmitter.valueToYaml_fuel JSON_parse Number_toString
    formatString formatMultilineYaml.

Definition valueToYaml : jsvalue -> nat -> string :=
  ValueEmitter.valueToYaml JSON_parse Number_toString
    formatString formatMultilineYaml.

Definition jsonToYaml : string -> exn + string :=
  ValueEmitter.jsonToYaml JSON_parse Number_toString
    formatString formatMultilineYaml.
End Host.

End Json2Yaml.

(* ================================================================== *)
(** ** Record driver *)
(* ================================================================== *)

(** [convertJsonlToYaml] of [src/extension.ts]. *)
Module Extension.

Section Driver.
(** The function imported from [./yamlConverter]. *)
Variable jsonToYaml : string -> exn + string.

(** The loop [for (let i = 0; i < lines.length; i++)], from index [i] on;
    [yamlLines] is the array it pushes to. *)
Fixpoint convert_loop (i : nat) (lines : list string) (yamlLines : list string)
    : list string :=
  match lines with
  | [] => yamlLines
  | raw :: rest =>
      let line := Js.trim raw in
      if String.eqb line EmptyString then convert_loop (S i) rest yamlLines
      else
        match jsonToYaml line with
        | inr yamlContent =>
            convert_loop (S i) rest (Js.push_all yamlLines [yamlContent])
        | inl error =>
            convert_loop (S i) rest
              (Js.push_all yamlLines
                 ["# Error converting line " ++ Js.decimal (i + 1) ++ ": "
                    ++ exn_toString error;
                  "# Original content: " ++ line])
        end
  end.

Definition convertJsonlToYaml_with (jsonlText : string) : string :=
  Js.join (Js.NL ++ Js.NL) (convert_loop 0 (Js.split_lines jsonlText) []).
End Driver.

Definition convertJsonlToYaml (JSON_parse : string -> exn + jsvalue)
    (Number_toString : PrimFloat.float -> string) (jsonlText : string)
    : string :=
  convertJsonlToYaml_with
    (YamlConverter.jsonToYaml JSON_parse Number_toString) jsonlText.

End Extension.

(* ================================================================== *)
(** ** The quoting rules, in the words of the specification *)
(* ================================================================== *)

Module Rules.

Definition chars (s : string) : list ascii := list_ascii_of_string s.

Definition whitespace (c : ascii) : Prop :=
  In c ["009"; "010"; "011"; "012"; "013"; " "; "160"]%char.

Definition indicator (c : ascii) : Prop :=
  In c ["-"; ":"; "{"; "}"; "["; "]"; ","; "&"; "*"; "#"; "?"; "|"; "<"; ">";
        "="; "!"; "%"; "@"; "`"]%char.

Definition digit (c : ascii) : Prop :=
  In c ["0"; "1"; "2"; "3"; "4"; "5"; "6"; "7"; "8"; "9"]%char.

(** Two code units that are equal, or the two cases of one of the 26 letters. *)
Definition same_letter (a b : ascii) : Prop :=
  a = b \/
  (exists k, k < 26 /\ Js.code a = 65 + k /\ Js.code b = 97 + k) \/
  (exists k, k < 26 /\ Js.code a = 97 + k /\ Js.code b = 65 + k).

(** Case-insensitive equality of two strings. *)
Inductive ci_eq : string -> string -> Prop :=
| ci_eq_nil : ci_eq EmptyString EmptyString
| ci_eq_cons a b s t :
    same_letter a b -> ci_eq s t -> ci_eq (String a s) (String b t).

Definition reserved_words : list string :=
  ["true"; "false"; "null"; "yes"; "no"; "on"; "off"].

Definition first_char (P : ascii -> Prop) (s : string) : Prop :=
  exists c rest, s = String c rest /\ P c.

(** The four rules of the scalar classifier. *)
Definition quoting_rule (s : string) : Prop :=
  first_char (fun c => whitespace c \/ indicator c) s \/
  first_char (fun c => digit c \/ c = "-"%char) s \/
  (exists w, In w reserved_words /\ ci_eq s w) \/
  (s <> EmptyString /\ forall c, In c (chars s) -> digit c \/ c = "."%char).

End Rules.

(** The small letters a..z. *)
Definition lowercase (c : ascii) : Prop := 97 <= Js.code c <= 122.

(* ================================================================== *)
(** ** Block literals, in the words of the specification *)
(* ================================================================== *)

Module Block.

(** The first line of a rendered text. *)
Definition marker_line (rendered : string) : string :=
  List.hd EmptyString (Js.split_lines rendered).

(** The three block-literal markers. *)
Definition markers : list string := ["|"; "|+"; "|-"].

(** [sub] occurs in [s]. *)
Definition contains (s sub : string) : Prop :=
  exists before after, s = before ++ sub ++ after.

(** The string has a line feed or a colon followed by a space: the string
    formatter renders it as a block literal. *)
Definition is_block_value (s : string) : Prop :=
  contains s Js.NL \/ contains s ": ".

Definition ends_with_newline (s : string) : Prop :=
  exists t, s = t ++ Js.NL.

Definition ends_with_two_newlines (s : string) : Prop :=
  exists t, s = t ++ Js.NL ++ Js.NL.

Definition ends_with_one_newline (s : string) : Prop :=
  exists t, s = t ++ Js.NL /\ ~ ends_with_newline t.

(** The marker the chomping rule selects for a string. *)
Definition chomping_rule (s marker : string) : Prop :=
  (ends_with_two_newlines s -> marker = "|+") /\
  (ends_with_one_newline s -> marker = "|") /\
  (~ ends_with_newline s -> marker = "|-").

(** A single-line scalar: the string formatter does not choose a block
    literal for it. *)
Definition single_line (s : string) : Prop :=
  ~ contains s Js.NL /\ ~ contains s ": ".

(** The double-quoted form of a string. *)
Definition quoted (s : string) : string := Js.DQ ++ escapeString s ++ Js.DQ.

(** What indentation reflow is to return for a rendered value: the marker of
    a block literal joins the prefix and the other lines move two columns to
    the right; any other value follows the prefix line unchanged. *)
Definition reflowed (yamlValue prefix indentStr : string) (out : list string)
    : Prop :=
  forall first others,
    Js.split_lines yamlValue = first :: others ->
    (In first markers ->
       out = (indentStr ++ prefix ++ first)
               :: map (fun line => indentStr ++ "  " ++ line) others) /\
    (~ In first markers -> out = (indentStr ++ prefix) :: first :: others).

(** A block literal of [s] that holds the elements of the split of [s]
    without the last one, each passed through [clean]. *)
Definition drops_artifact (clean : string -> string) (s rendered : string)
    : Prop :=
  exists marker,
    In marker markers /\
    rendered
    = marker ++ Js.NL
        ++ Js.join Js.NL (map clean (removelast (Js.split_lines s))).

(** The text does not begin with a vertical bar. *)
Definition head_not_bar (s : string) : Prop :=
  match s with
  | EmptyString => True
  | String c _ => c <> "|"%char
  end.

(** The first line of a text is not a marker with a chomping indicator. *)
Definition plain_marker (rendered : string) : Prop :=
  marker_line rendered <> "|+" /\ marker_line rendered <> "|-".

End Block.

(* ================================================================== *)
(** ** A parser for the examples *)
(* ================================================================== *)

(** [JSON.parse] on ten documents; every other text is rejected with the
    exception below.  It stands for the host function in the closed
    examples. *)
Module Demo.

Definition syntax_error : exn :=
  JsError "SyntaxError" "Unexpected token in JSON".

Definition quote (s : string) : string := Js.DQ ++ s ++ Js.DQ.

Definition documents : list (string * jsvalue) :=
  [ ("null", JNull);
    ("true", JBool true);
    ("[]", JArray []);
    ("{}", JObject []);
    (quote "x", JString "x");
    ("[" ++ quote "null" ++ "]", JArray [JString "null"]);
    ("{" ++ quote "a" ++ ":" ++ quote "[]" ++ "}", JObject [("a", JString "[]")]);
    ("{" ++ quote "a" ++ ":" ++ quote "" ++ "}", JObject [("a", JString "")]);
    ("{" ++ quote "a" ++ ":" ++ quote "k: v" ++ "}", JObject [("a", JString "k: v")]);
    ("[" ++ quote "a\n" ++ "]", JArray [JString ("a" ++ Js.NL)]) ].

Fixpoint lookup (table : list (string * jsvalue)) (text : string)
    : exn + jsvalue :=
  match table with
  | [] => inl syntax_error
  | (doc, v) :: rest => if String.eqb text doc then inr v else lookup rest text
  end.

Definition JSON_parse (text : string) : exn + jsvalue := lookup documents text.

(** No number occurs in the documents above. *)
Definition Number_toString (n : PrimFloat.float) : string := "0".

End Demo.

(* ================================================================== *)
(** ** The record stream, in the words of the specification *)
(* ================================================================== *)

Module Stream.

(** The records of an input: its non-blank lines, trimmed, each with its
    line number; [n] is the number of the first line of [lines]. *)
Fixpoint records (n : nat) (lines : list string) : list (nat * string) :=
  match lines with
  | [] => []
  | raw :: rest =>
      if String.eqb (Js.trim raw) EmptyString then records (S n) rest
      else (n, Js.trim raw) :: records (S n) rest
  end.

(** The two diagnostic lines of a record that failed. *)
Definition diagnostic (n : nat) (error : exn) (line : string) : list string :=
  [ "# Error converting line " ++ Js.decimal n ++ ": " ++ exn_toString error;
    "# Original content: " ++ line ].

(** What a record contributes to the output: its YAML text, or its two
    diagnostic lines. *)
Definition entries (jsonToYaml : string -> exn + string)
    (record : nat * string) : list string :=
  match jsonToYaml (snd record) with
  | inr yamlContent => [yamlContent]
  | inl error => diagnostic (fst record) error (snd record)
  end.

(** A record as one block: the diagnostic lines on two consecutive lines. *)
Definition block (jsonToYaml : string -> exn + string)
    (record : nat * string) : string :=
  Js.join Js.NL (entries jsonToYaml record).

(** The driver as the specification words it: one block per record, a blank
    line between two blocks. *)
Definition renderRecordStream (jsonToYaml : string -> exn + string)
    (jsonlText : string) : string :=
  Js.join (Js.NL ++ Js.NL)
    (map (block jsonToYaml) (records 1 (Js.split_lines jsonlText))).

(** A string of whitespace only. *)
Definition all_space (s : string) : Prop :=
  forall c, In c (Rules.chars s) -> Rules.whitespace c.

(** The lines of an input, each with its number; [n] is the number of the
    first one. *)
Fixpoint numbered (n : nat) (lines : list string) : list (nat * string) :=
  match lines with
  | [] => []
  | line :: rest => (n, line) :: numbered (S n) rest
  end.

(** What a line contributes to the output once it is trimmed: nothing when
    nothing is left of it, its rendered value when it parses, and otherwise
    the two diagnostic lines, the second one showing the trimmed text. *)
Definition trimmed_entries (parse : string -> exn + jsvalue)
    (render : jsvalue -> nat -> string) (record : nat * string)
    : list string :=
  let (n, line) := record in
  if String.eqb line EmptyString then []
  else
    match parse line with
    | inr parsed => [render parsed 0]
    | inl error =>
        [ "# Error converting line " ++ Js.decimal n
            ++ ": Error: Failed to parse JSON: " ++ exn_toString error;
          "# Original content: " ++ line ]
    end.

End Stream.

(* ================================================================== *)
(** ** Escaping, read backwards *)
(* ================================================================== *)

Module Escape.

(** A code unit [JSON.stringify] copies as it is. *)
Definition plain_char (c : ascii) : Prop :=
  32 <= Js.code c /\ c <> Js.DQUOTE /\ c <> Js.BACKSLASH.

(** The value of a hexadecimal digit in small letters. *)
Definition hex_value (c : ascii) : nat :=
  let n := Js.code c in if n <? 58 then n - 48 else n - 87.

(** The code unit at the head of an escaped body, and the rest of the body:
    the inverse of [Js.quote_char], used to show that escaping loses
    nothing. *)
Definition unquote_first (body : string) : option (ascii * string) :=
  match body with
  | EmptyString => None
  | String c rest =>
      if Ascii.eqb c Js.BACKSLASH then
        match rest with
        | EmptyString => None
        | String x rest' =>
            if Ascii.eqb x "u"%char then
              match rest' with
              | String _ (String _ (String h1 (String h2 rest''))) =>
                  Some (ascii_of_nat (16 * hex_value h1 + hex_value h2), rest'')
              | _ => None
              end
            else if Ascii.eqb x "b"%char then Some ("008"%char, rest')
            else if Ascii.eqb x "f"%char then Some ("012"%char, rest')
            else if Ascii.eqb x "n"%char then Some ("010"%char, rest')
            else if Ascii.eqb x "r"%char then Some ("013"%char, rest')
            else if Ascii.eqb x "t"%char then Some ("009"%char, rest')
            else Some (x, rest')
        end
      else Some (c, rest)
  end.

End Escape.

(* ================================================================== *)
(** ** Layout of a rendered container *)
(* ================================================================== *)

Module Layout.

(** Every line of the text begins with [indent] spaces. *)
Definition indented (indent : nat) (text : string) : Prop :=
  forall line, In line (Js.split_lines text) ->
               exists rest, line = Js.repeat_space indent ++ rest.

(** No key of the value, nor of a value a string of it unwraps to, holds a
    line feed. *)
#[warning="-register-all"]
Inductive plain_keys (parse : string -> exn + jsvalue) : jsvalue -> Prop :=
| plain_null : plain_keys parse JNull
| plain_undefined : plain_keys parse JUndefined
| plain_bool b : plain_keys parse (JBool b)
| plain_number n : plain_keys parse (JNumber n)
| plain_string s :
    (forall parsed, parse s = inr parsed -> is_string parsed = false ->
                    plain_keys parse parsed) ->
    plain_keys parse (JString s)
| plain_array items :
    Forall (plain_keys parse) items -> plain_keys parse (JArray items)
| plain_object fields :
    Forall (fun field => ~ Block.contains (fst field) Js.NL /\
                         plain_keys parse (snd field)) fields ->
    plain_keys parse (JObject fields).

(** A rendered text is well placed at an indent when it goes on the line
    of its key or dash, or opens with a block marker its reflow knows, or
    has every line behind the indent. *)
Definition well_placed (is_marker : string -> bool) (indent : nat)
    (text : string) : Prop :=
  ValueEmitter.is_block text = false \/
  is_marker (Block.marker_line text) = true \/
  indented indent text.

(** A control character a block literal cannot hold: 0..8, 11..31 and 127. *)
Definition unsupported (c : ascii) : Prop :=
  Js.code c <= 8 \/ 11 <= Js.code c <= 31 \/ Js.code c = 127.

(** A non-empty array or object. *)
Definition is_container (v : jsvalue) : Prop :=
  match v with
  | JArray (_ :: _) => True
  | JObject (_ :: _) => True
  | _ => False
  end.

End Layout.

(* ================================================================== *)
(** ** Properties of the scalar classifier *)
(* ================================================================== *)

(** Case analysis on the 256 code units. *)
Ltac each_char c :=
  destruct c as [[] [] [] [] [] [] [] []].

Lemma is_space_whitespace (c : ascii) :
  Js.is_space c = true <-> Rules.whitespace c.
Proof.
  unfold Rules.whitespace.
  each_char c; vm_compute; split; intro H;
    try discriminate; try reflexivity; try tauto;
    repeat (destruct H as [H | H]; try discriminate H); try contradiction.
Qed.

Lemma char_in_In (c : ascii) (set : string) :
  Js.char_in c set = true <-> In c (Rules.chars set).
Proof.
  induction set as [| d rest IH]; simpl.
  - split; [discriminate | tauto].
  - rewrite orb_true_iff, IH, Ascii.eqb_eq. split; intros [H | H]; auto.
Qed.

Lemma is_digit_digit (c : ascii) :
  Js.is_digit c = true <-> Rules.digit c.
Proof.
  unfold Rules.digit.
  each_char c; vm_compute; split; intro H;
    try discriminate; try reflexivity; try tauto;
    repeat (destruct H as [H | H]; try discriminate H); try contradiction.
Qed.

Lemma starts_with_indicator_spec (s : string) :
  starts_with_indicator s = true <->
  Rules.first_char (fun c => Rules.whitespace c \/ Rules.indicator c) s.
Proof.
  unfold Rules.first_char, starts_with_indicator. destruct s as [| c rest].
  - split; [discriminate | intros (c & r & H & _); discriminate].
  - rewrite orb_true_iff, is_space_whitespace, char_in_In.
    change (Rules.chars "-:{}[],&*#?|<>=!%@`") with
      ["-"; ":"; "{"; "}"; "["; "]"; ","; "&"; "*"; "#"; "?"; "|"; "<"; ">";
       "="; "!"; "%"; "@"; "`"]%char.
    fold (Rules.indicator c). split.
    + intros H. exists c, rest. split; [reflexivity | exact H].
    + intros (c' & r' & E & H). inversion E; subst. exact H.
Qed.

Lemma starts_like_number_spec (s : string) :
  starts_like_number s = true <->
  Rules.first_char (fun c => Rules.digit c \/ c = "-"%char) s.
Proof.
  unfold Rules.first_char, starts_like_number. destruct s as [| c rest].
  - split; [discriminate | intros (c & r & H & _); discriminate].
  - rewrite orb_true_iff, is_digit_digit, Ascii.eqb_eq. split.
    + intros H. exists c, rest. split; [reflexivity | exact H].
    + intros (c' & r' & E & H). inversion E; subst. exact H.
Qed.

Lemma code_lt_256 (c : ascii) : Js.code c < 256.
Proof. apply nat_ascii_bounded. Qed.

Lemma to_lower_same_letter (a b : ascii) :
  lowercase b -> (Js.to_lower a = b <-> Rules.same_letter a b).
Proof.
  unfold lowercase, Rules.same_letter, Js.to_lower. intros Hb.
  pose proof (code_lt_256 a) as Ha.
  destruct ((65 <=? Js.code a) && (Js.code a <=? 90)) eqn:E.
  - apply andb_true_iff in E. destruct E as [E1 E2].
    apply Nat.leb_le in E1, E2. split.
    + intros <-. right; left. exists (Js.code a - 65).
      unfold Js.code at 3. rewrite nat_ascii_embedding by (unfold Js.code in *; lia).
      unfold Js.code in *. lia.
    + intros [-> | [(k & Hk & H1 & H2) | (k & Hk & H1 & H2)]]; try lia.
      replace (Js.code a + 32) with (Js.code b) by lia.
      unfold Js.code. apply ascii_nat_embedding.
  - split; [intros H; now left |].
    intros [-> | [(k & Hk & H1 & H2) | (k & Hk & H1 & H2)]]; try reflexivity;
      try lia.
    exfalso. rewrite H1 in E.
    assert (X : (65 <=? 65 + k) && (65 + k <=? 90) = true).
    { apply andb_true_iff; split; apply Nat.leb_le; lia. }
    congruence.
Qed.

Lemma lower_ci_eq (w : string) :
  Forall lowercase (Rules.chars w) ->
  forall s, Js.lower s = w <-> Rules.ci_eq s w.
Proof.
  induction w as [| b w IH]; intros Hw s.
  - destruct s; simpl; split; intro H; try constructor;
      try discriminate; inversion H.
  - simpl in Hw. inversion Hw as [| ? ? Hb Hrest]; subst.
    destruct s as [| a s]; simpl.
    + split; intro H; [discriminate | inversion H].
    + split.
      * intros H. inversion H; subst. constructor.
        -- apply (to_lower_same_letter a _ Hb). reflexivity.
        -- apply (IH Hrest). reflexivity.
      * intros H. inversion H; subst. f_equal.
        -- now apply (to_lower_same_letter a b Hb).
        -- now apply (IH Hrest).
Qed.

Ltac lowercase_word :=
  repeat constructor; unfold lowercase; cbn; lia.

Lemma is_reserved_word_spec (s : string) :
  is_reserved_word s = true <->
  exists w, In w Rules.reserved_words /\ Rules.ci_eq s w.
Proof.
  unfold is_reserved_word, Rules.reserved_words.
  repeat rewrite orb_true_iff. repeat rewrite String.eqb_eq.
  rewrite (lower_ci_eq "true"), (lower_ci_eq "false"), (lower_ci_eq "null"),
    (lower_ci_eq "yes"), (lower_ci_eq "no"), (lower_ci_eq "on"),
    (lower_ci_eq "off") by lowercase_word.
  split.
  - intros H. decompose [or] H; eexists; (split; [| eassumption]); simpl; tauto.
  - intros (w & Hin & Hw). simpl in Hin.
    repeat (destruct Hin as [<- | Hin]; [tauto |]). contradiction.
Qed.

Lemma forall_chars_spec (p : ascii -> bool) (s : string) :
  Js.forall_chars p s = true <-> forall c, In c (Rules.chars s) -> p c = true.
Proof.
  induction s as [| a s IH]; simpl.
  - split; [intros _ c [] | reflexivity].
  - rewrite andb_true_iff, IH. split.
    + intros [Ha Hs] c [<- | Hc]; auto.
    + intros H. split; [apply H; now left | intros c Hc; apply H; now right].
Qed.

Lemma digits_and_dots_spec (s : string) :
  digits_and_dots s = true <->
  s <> EmptyString /\
  forall c, In c (Rules.chars s) -> Rules.digit c \/ c = "."%char.
Proof.
  unfold digits_and_dots. destruct s as [| a s].
  - split; [discriminate | intros [H _]; now elim H].
  - rewrite forall_chars_spec. split.
    + intros H. split; [discriminate |]. intros c Hc.
      specialize (H c Hc). apply orb_true_iff in H.
      rewrite is_digit_digit, Ascii.eqb_eq in H. exact H.
    + intros [_ H] c Hc. apply orb_true_iff.
      rewrite is_digit_digit, Ascii.eqb_eq. now apply H.
Qed.

(** C8.  [needsQuotes s] is true exactly when the first character of [s] is
    whitespace or one of [- : { } [ ] , & * # ? | < > = ! % @ `], or the first
    character is a digit or [-], or [s] equals one of true, false, null,
    yes, no, on, off up to the case of its letters, or [s] is a non-empty
    run of digits and dots; it holds of "true", "123" and "-5" and not of
    "hello". *)
Theorem needsQuotes_quoting_rule :
  (forall s, needsQuotes s = true <-> Rules.quoting_rule s) /\
  needsQuotes "true" = true /\
  needsQuotes "123" = true /\
  needsQuotes "-5" = true /\
  needsQuotes "hello" = false.
Proof.
  split; [| repeat split; reflexivity].
  intros s. unfold needsQuotes, Rules.quoting_rule.
  repeat rewrite orb_true_iff.
  rewrite starts_with_indicator_spec, starts_like_number_spec,
    is_reserved_word_spec, digits_and_dots_spec.
  tauto.
Qed.

(* ================================================================== *)
(** ** Facts about the host string functions *)
(* ================================================================== *)

Lemma append_nil_r (s : string) : s ++ EmptyString = s.
Proof. induction s; simpl; congruence. Qed.

Lemma append_assoc (a b c : string) : (a ++ b) ++ c = a ++ b ++ c.
Proof. induction a; simpl; congruence. Qed.

Lemma length_append (a b : string) :
  String.length (a ++ b) = String.length a + String.length b.
Proof. induction a; simpl; congruence. Qed.

Lemma append_inv_tail (a b c : string) : a ++ c = b ++ c -> a = b.
Proof.
  revert b. induction a as [| x a IH]; intros [| y b] H; simpl in H.
  - reflexivity.
  - apply (f_equal String.length) in H. simpl in H.
    rewrite length_append in H. lia.
  - apply (f_equal String.length) in H. simpl in H.
    rewrite length_append in H. lia.
  - inversion H; subst. f_equal. now apply IH.
Qed.

Lemma split_lines_nonempty (s : string) : Js.split_lines s <> [].
Proof.
  destruct s as [| c s]; simpl; [discriminate |].
  destruct (Ascii.eqb c Js.LF); [discriminate |].
  destruct (Js.split_lines s); discriminate.
Qed.

Lemma join_cons2 (sep x y : string) (l : list string) :
  Js.join sep (x :: y :: l) = x ++ sep ++ Js.join sep (y :: l).
Proof. reflexivity. Qed.

Lemma join_cons_char (sep : string) (c : ascii) (x : string) (l : list string) :
  Js.join sep (String c x :: l) = String c (Js.join sep (x :: l)).
Proof. destruct l; reflexivity. Qed.

(** Splitting on line feeds and joining with line feeds are inverse. *)
Lemma join_split_lines (s : string) : Js.join Js.NL (Js.split_lines s) = s.
Proof.
  induction s as [| c s IH]; [reflexivity |].
  simpl Js.split_lines. destruct (Ascii.eqb c Js.LF) eqn:E.
  - apply Ascii.eqb_eq in E. subst c.
    pose proof (split_lines_nonempty s) as Hne.
    destruct (Js.split_lines s) as [| l ls]; [congruence |].
    rewrite join_cons2, IH. reflexivity.
  - pose proof (split_lines_nonempty s) as Hne.
    destruct (Js.split_lines s) as [| l ls]; [congruence |].
    rewrite join_cons_char, IH. reflexivity.
Qed.

Lemma split_lines_append_NL (s : string) :
  Js.split_lines (s ++ Js.NL) = (Js.split_lines s ++ [EmptyString])%list.
Proof.
  induction s as [| c s IH]; [reflexivity |].
  simpl. rewrite IH. destruct (Ascii.eqb c Js.LF); [reflexivity |].
  pose proof (split_lines_nonempty s) as Hne.
  destruct (Js.split_lines s); [congruence | reflexivity].
Qed.

Lemma endsWith_append (t suf : string) : Js.endsWith (t ++ suf) suf = true.
Proof.
  induction t as [| c t IH]; simpl.
  - destruct suf; simpl; [reflexivity |].
    rewrite Ascii.eqb_refl, String.eqb_refl. reflexivity.
  - rewrite IH. apply orb_true_r.
Qed.

Lemma endsWith_inv (s suf : string) :
  Js.endsWith s suf = true -> exists t, s = t ++ suf.
Proof.
  induction s as [| c s IH]; simpl; intros H.
  - apply orb_true_iff in H. destruct H as [H | H]; [| discriminate].
    destruct suf; [| discriminate]. now exists EmptyString.
  - apply orb_true_iff in H. destruct H as [H | H].
    + exists EmptyString. simpl.
      change ((String c s =? suf)%string = true) in H.
      now apply String.eqb_eq in H.
    + destruct (IH H) as [t ->]. now exists (String c t).
Qed.

Lemma endsWith_iff (s suf : string) :
  Js.endsWith s suf = true <-> exists t, s = t ++ suf.
Proof.
  split; [apply endsWith_inv |]. intros [t ->]. apply endsWith_append.
Qed.

Lemma includes_append (a sub b : string) :
  Js.includes (a ++ sub ++ b) sub = true.
Proof.
  induction a as [| c a IH].
  - simpl. assert (P : String.prefix sub (sub ++ b) = true).
    { clear. induction sub as [| x sub IH]; simpl.
      - now destruct b.
      - rewrite IH. now destruct (ascii_dec x x). }
    destruct (sub ++ b); cbn [Js.includes]; rewrite P; reflexivity.
  - simpl. rewrite IH. apply orb_true_r.
Qed.

Lemma prefix_iff (p s : string) :
  String.prefix p s = true <-> exists after, s = p ++ after.
Proof.
  revert s. induction p as [| x p IH]; intros [| y s]; simpl.
  - split; [intros _; now exists EmptyString | reflexivity].
  - split; [intros _; now exists (String y s) | reflexivity].
  - split; [discriminate | intros [a H]; discriminate H].
  - destruct (ascii_dec x y) as [-> | Hne].
    + rewrite IH. split; intros [a H]; exists a; [now rewrite H |].
      now inversion H.
    + split; [discriminate | intros [a H]; inversion H; congruence].
Qed.

(** [includes] decides the occurrence of a substring. *)
Lemma includes_iff (s sub : string) :
  Js.includes s sub = true <-> Block.contains s sub.
Proof.
  unfold Block.contains. split.
  - induction s as [| c s IH]; cbn [Js.includes]; intros H;
      apply orb_true_iff in H; destruct H as [H | H]; try discriminate H.
    + apply prefix_iff in H. destruct H as [a H]. now exists EmptyString, a.
    + apply prefix_iff in H. destruct H as [a H]. now exists EmptyString, a.
    + destruct (IH H) as (b & a & ->). now exists (String c b), a.
  - intros (b & a & ->). apply includes_append.
Qed.

Lemma single_line_includes (s : string) :
  Block.single_line s <->
  Js.includes s Js.NL = false /\ Js.includes s ": " = false.
Proof.
  unfold Block.single_line. rewrite <- !includes_iff.
  destruct (Js.includes s Js.NL), (Js.includes s ": "); intuition congruence.
Qed.

Lemma last_is_snoc (l : list string) (x s : string) :
  Js.last_is (l ++ [x])%list s = String.eqb x s.
Proof.
  unfold Js.last_is. rewrite map_app. simpl. now rewrite last_last.
Qed.

(* ================================================================== *)
(** ** The string formatter *)
(* ================================================================== *)

Lemma marker_line_of_block (marker content : string) :
  In marker Block.markers ->
  Block.marker_line (marker ++ Js.NL ++ content) = marker.
Proof.
  unfold Block.markers, Block.marker_line.
  intros [<- | [<- | [<- | []]]]; reflexivity.
Qed.

Lemma block_marker_assoc (indicator content : string) :
  "|" ++ indicator ++ Js.NL ++ content = ("|" ++ indicator) ++ Js.NL ++ content.
Proof. reflexivity. Qed.

Lemma includes_trailing_NL (t : string) : Js.includes (t ++ Js.NL) Js.NL = true.
Proof.
  rewrite <- (append_nil_r Js.NL) at 1. apply includes_append.
Qed.

Lemma two_newlines_end (s : string) :
  Js.endsWith s (Js.NL ++ Js.NL) = true <-> Block.ends_with_two_newlines s.
Proof. apply endsWith_iff. Qed.

Lemma one_newline_end (s : string) :
  Block.ends_with_one_newline s ->
  Js.endsWith s Js.NL = true /\ Js.endsWith s (Js.NL ++ Js.NL) = false.
Proof.
  intros (t & -> & Hnot). split; [apply endsWith_append |].
  destruct (Js.endsWith (t ++ Js.NL) (Js.NL ++ Js.NL)) eqn:E; [| reflexivity].
  exfalso. apply Hnot. apply endsWith_inv in E. destruct E as [u E].
  exists u. rewrite <- append_assoc in E. now apply append_inv_tail in E.
Qed.

(** The indicator the two newer copies compute from the tail of the
    string follows the chomping rule. *)
Lemma chomping_indicator_rule (s : string) :
  Block.chomping_rule s
    ("|" ++ (if Js.endsWith s Js.NL
             then (if Js.endsWith s (Js.NL ++ Js.NL) then "+" else EmptyString)
             else "-")).
Proof.
  unfold Block.chomping_rule. repeat split.
  - intros H. pose proof H as [t ->].
    rewrite <- append_assoc at 1. rewrite endsWith_append.
    apply two_newlines_end in H. now rewrite H.
  - intros H. apply one_newline_end in H. destruct H as [-> ->]. reflexivity.
  - intros H. destruct (Js.endsWith s Js.NL) eqn:E; [| reflexivity].
    elim H. now apply endsWith_inv.
Qed.

Lemma chomping_indicator_marker (s : string) :
  In ("|" ++ (if Js.endsWith s Js.NL
              then (if Js.endsWith s (Js.NL ++ Js.NL) then "+" else EmptyString)
              else "-")) Block.markers.
Proof.
  unfold Block.markers.
  destruct (Js.endsWith s Js.NL), (Js.endsWith s (Js.NL ++ Js.NL)); simpl; tauto.
Qed.

Lemma block_condition (s : string) :
  Block.is_block_value s ->
  Js.includes s Js.NL || Js.includes s ": " = true.
Proof.
  intros [H | H]; apply includes_iff in H; rewrite H;
    [reflexivity | apply orb_true_r].
Qed.

(** [scripts/json2yaml.js]: a block literal whose marker line follows the
    chomping rule. *)
Lemma json2yaml_formatString_chomping (s : string) :
  Block.is_block_value s ->
  exists content,
    Json2Yaml.formatString s
      = Block.marker_line (Json2Yaml.formatString s) ++ Js.NL ++ content /\
    Block.chomping_rule s (Block.marker_line (Json2Yaml.formatString s)).
Proof.
  intros Hb. unfold Json2Yaml.formatString. rewrite (block_condition s Hb).
  cbv zeta. rewrite block_marker_assoc.
  rewrite marker_line_of_block by apply chomping_indicator_marker.
  eexists. split; [reflexivity | apply chomping_indicator_rule].
Qed.

(** The copy after [src/extension.ts]: the same. *)
Lemma copy_formatString_chomping (s : string) :
  Block.is_block_value s ->
  exists content,
    ConverterCopy.formatString s
      = Block.marker_line (ConverterCopy.formatString s) ++ Js.NL ++ content /\
    Block.chomping_rule s (Block.marker_line (ConverterCopy.formatString s)).
Proof.
  intros Hb. unfold ConverterCopy.formatString. rewrite (block_condition s Hb).
  cbv zeta. rewrite block_marker_assoc.
  rewrite marker_line_of_block by apply chomping_indicator_marker.
  eexists. split; [reflexivity | apply chomping_indicator_rule].
Qed.

(** [src/yamlConverter.ts]: the marker line of a block literal is always the
    bare [|]. *)
Lemma yamlConverter_formatString_marker (s : string) :
  Block.is_block_value s ->
  Block.marker_line (YamlConverter.formatString s) = "|".
Proof.
  intros Hb. unfold YamlConverter.formatString. rewrite (block_condition s Hb).
  cbv zeta. apply (marker_line_of_block "|"). simpl. tauto.
Qed.

Lemma not_ends_with_newline (s : string) :
  Js.endsWith s Js.NL = false -> ~ Block.ends_with_newline s.
Proof.
  intros E [t ->]. rewrite endsWith_append in E. discriminate.
Qed.

(** C1.  For a string with a line feed or a colon-space the marker line of
    the block literal is to carry [+], nothing or [-] according to the tail
    of the string.  [formatString] of [src/yamlConverter.ts] writes the bare
    marker whatever the tail: "key: value" does not end with a line feed and
    is rendered under [|], where the other two copies write [|-]. *)
Theorem yamlConverter_formatString_no_chomping :
  Block.is_block_value "key: value" /\
  ~ Block.ends_with_newline "key: value" /\
  YamlConverter.formatString "key: value" = "|" ++ Js.NL ++ "key: value" /\
  Json2Yaml.formatString "key: value" = "|-" ++ Js.NL ++ "key: value" /\
  ConverterCopy.formatString "key: value" = "|-" ++ Js.NL ++ "key: value" /\
  YamlConverter.valueToYaml Demo.JSON_parse Demo.Number_toString
    (JObject [("a", JString "key: value")]) 0
    = "a: |" ++ Js.NL ++ "  key: value" /\
  ~ Block.chomping_rule "key: value"
      (Block.marker_line (YamlConverter.formatString "key: value")).
Proof.
  assert (N : ~ Block.ends_with_newline "key: value")
    by (apply not_ends_with_newline; reflexivity).
  repeat split; try reflexivity; try exact N.
  - right. now exists "key", "value".
  - intros (_ & _ & H). specialize (H N). discriminate H.
Qed.

(** C3.  The empty string as a scalar value is to be written as a pair of
    double quotes.  [formatString] of [src/yamlConverter.ts] has no test for
    the empty string and returns it bare, so the value of a key disappears;
    the other two copies write the quotes. *)
Theorem yamlConverter_formatString_empty_bare :
  YamlConverter.formatString EmptyString = EmptyString /\
  Json2Yaml.formatString EmptyString = Js.DQ ++ Js.DQ /\
  ConverterCopy.formatString EmptyString = Js.DQ ++ Js.DQ /\
  YamlConverter.valueToYaml Demo.JSON_parse Demo.Number_toString
    (JObject [("a", JString EmptyString)]) 0 = "a: " /\
  Json2Yaml.valueToYaml Demo.JSON_parse Demo.Number_toString
    (JObject [("a", JString EmptyString)]) 0 = "a: " ++ Js.DQ ++ Js.DQ.
Proof. repeat split; reflexivity. Qed.

Lemma pop_empty_lines_keeps (rounds : nat) (lines : list string) :
  YamlConverter.pop_empty_lines rounds lines true = lines.
Proof.
  destruct rounds; simpl; [reflexivity |].
  now rewrite andb_false_r.
Qed.

(** The loop of [src/yamlConverter.ts] has come to its end after
    [length lines] rounds: its condition is false on what they return. *)
Lemma pop_empty_lines_done (rounds : nat) :
  forall lines endsWithNewline,
    length lines <= rounds ->
    let left := YamlConverter.pop_empty_lines rounds lines endsWithNewline in
    (0 <? length left) && Js.last_is left EmptyString && negb endsWithNewline
    = false.
Proof.
  induction rounds as [| k IH]; intros lines b Hlen; cbv zeta.
  - destruct lines; [reflexivity | simpl in Hlen; lia].
  - cbn [YamlConverter.pop_empty_lines].
    destruct ((0 <? length lines) && Js.last_is lines EmptyString && negb b)
      eqn:C; [| exact C].
    apply IH. destruct lines as [| l ls]; [discriminate C |].
    pose proof (removelast_firstn_len (l :: ls)) as R.
    rewrite R, length_firstn. simpl in *. lia.
Qed.

(** [src/yamlConverter.ts]: for a string that ends with a line feed the loop
    removes nothing, and the block content keeps the final line feed. *)
Lemma yamlConverter_formatString_keeps_last (t : string) :
  YamlConverter.formatString (t ++ Js.NL) = "|" ++ Js.NL ++ t ++ Js.NL.
Proof.
  unfold YamlConverter.formatString.
  rewrite includes_trailing_NL, endsWith_append. cbv zeta. simpl orb. cbv iota.
  rewrite pop_empty_lines_keeps, join_split_lines. reflexivity.
Qed.

Lemma drop_split_artifact (lines : list string) :
  (if (0 <? length (lines ++ [EmptyString])%list)
      && Js.last_is (lines ++ [EmptyString])%list EmptyString
   then removelast (lines ++ [EmptyString])%list
   else (lines ++ [EmptyString])%list) = lines.
Proof.
  rewrite last_is_snoc, removelast_last, length_app. simpl.
  replace (0 <? length lines + 1) with true; [reflexivity |].
  symmetry. apply Nat.ltb_lt. lia.
Qed.

(** The copy after [src/extension.ts]: the content of the block is the string
    without its final line feed. *)
Lemma copy_formatString_drops_last (t : string) :
  ConverterCopy.formatString (t ++ Js.NL)
  = Block.marker_line (ConverterCopy.formatString (t ++ Js.NL)) ++ Js.NL ++ t.
Proof.
  unfold ConverterCopy.formatString.
  rewrite includes_trailing_NL. simpl orb. cbv iota zeta.
  rewrite split_lines_append_NL, drop_split_artifact, join_split_lines.
  rewrite block_marker_assoc.
  rewrite marker_line_of_block by apply chomping_indicator_marker.
  reflexivity.
Qed.

Lemma replace_unsupported_char_LF (c : ascii) :
  Ascii.eqb (Json2Yaml.replace_unsupported_char c) Js.LF = Ascii.eqb c Js.LF.
Proof. each_char c; reflexivity. Qed.

Lemma split_lines_replace_unsupported (s : string) :
  Js.split_lines (Json2Yaml.replace_unsupported s)
  = map Json2Yaml.replace_unsupported (Js.split_lines s).
Proof.
  induction s as [| c s IH]; [reflexivity |].
  simpl. rewrite replace_unsupported_char_LF, IH.
  destruct (Ascii.eqb c Js.LF) eqn:E.
  - apply Ascii.eqb_eq in E. subst c. reflexivity.
  - destruct (Js.split_lines s); reflexivity.
Qed.

Lemma json2yaml_formatString_trailing (t : string) :
  Json2Yaml.formatString (t ++ Js.NL)
  = "|" ++ (if Js.endsWith (t ++ Js.NL) Js.NL
            then (if Js.endsWith (t ++ Js.NL) (Js.NL ++ Js.NL)
                  then "+" else EmptyString)
            else "-")
      ++ Js.NL ++ Json2Yaml.replace_unsupported t.
Proof.
  unfold Json2Yaml.formatString.
  rewrite includes_trailing_NL. simpl orb. cbv iota zeta.
  rewrite split_lines_append_NL, map_app.
  change (map Json2Yaml.replace_unsupported [EmptyString]) with [EmptyString].
  rewrite drop_split_artifact, <- split_lines_replace_unsupported,
    join_split_lines.
  reflexivity.
Qed.

(** [scripts/json2yaml.js]: the content of the block is the string without
    its final line feed, unsupported control characters replaced. *)
Lemma json2yaml_formatString_drops_last (t : string) :
  Json2Yaml.formatString (t ++ Js.NL)
  = Block.marker_line (Json2Yaml.formatString (t ++ Js.NL)) ++ Js.NL
      ++ Json2Yaml.replace_unsupported t.
Proof.
  rewrite json2yaml_formatString_trailing, block_marker_assoc.
  rewrite marker_line_of_block by apply chomping_indicator_marker.
  reflexivity.
Qed.

Lemma copy_formatString_marker_line (s : string) :
  Block.is_block_value s ->
  In (Block.marker_line (ConverterCopy.formatString s)) Block.markers.
Proof.
  intros Hb. unfold ConverterCopy.formatString.
  rewrite (block_condition s Hb). cbv zeta. rewrite block_marker_assoc.
  rewrite marker_line_of_block by apply chomping_indicator_marker.
  apply chomping_indicator_marker.
Qed.

Lemma json2yaml_formatString_marker_line (s : string) :
  Block.is_block_value s ->
  In (Block.marker_line (Json2Yaml.formatString s)) Block.markers.
Proof.
  intros Hb. unfold Json2Yaml.formatString.
  rewrite (block_condition s Hb). cbv zeta. rewrite block_marker_assoc.
  rewrite marker_line_of_block by apply chomping_indicator_marker.
  apply chomping_indicator_marker.
Qed.

Lemma trailing_NL_block (t : string) : Block.is_block_value (t ++ Js.NL).
Proof. left. exists t, EmptyString. reflexivity. Qed.

Lemma drop_last_element (t : string) :
  removelast (Js.split_lines (t ++ Js.NL)) = Js.split_lines t.
Proof. now rewrite split_lines_append_NL, removelast_last. Qed.

(** C5, as amended.  For a string that ends with a line feed the last
    element of the split is empty.  [scripts/json2yaml.js] and the copy after
    [src/extension.ts] drop it before they join the lines, so that the
    content of the block is the string without its final line feed.
    [src/yamlConverter.ts] keeps it when the string ends with exactly one
    line feed: it joins every element of the split, and the content of the
    block is the whole string. *)
Theorem formatString_trailing_newline (s : string) :
  Block.ends_with_newline s ->
  Js.last_is (Js.split_lines s) EmptyString = true /\
  Block.drops_artifact Json2Yaml.replace_unsupported s (Json2Yaml.formatString s) /\
  Block.drops_artifact (fun line => line) s (ConverterCopy.formatString s) /\
  (forall t, s = t ++ Js.NL ->
     Js.join Js.NL (removelast (Js.split_lines s)) = t /\
     Json2Yaml.formatString s
       = Block.marker_line (Json2Yaml.formatString s) ++ Js.NL
           ++ Json2Yaml.replace_unsupported t /\
     ConverterCopy.formatString s
       = Block.marker_line (ConverterCopy.formatString s) ++ Js.NL ++ t) /\
  (Block.ends_with_one_newline s ->
     YamlConverter.formatString s
       = "|" ++ Js.NL ++ Js.join Js.NL (Js.split_lines s) /\
     YamlConverter.formatString s = "|" ++ Js.NL ++ s).
Proof.
  intros [t ->]. split; [| split; [| split; [| split]]].
  - now rewrite split_lines_append_NL, last_is_snoc.
  - exists (Block.marker_line (Json2Yaml.formatString (t ++ Js.NL))). split.
    + apply json2yaml_formatString_marker_line, trailing_NL_block.
    + rewrite drop_last_element, <- split_lines_replace_unsupported,
        join_split_lines.
      apply json2yaml_formatString_drops_last.
  - exists (Block.marker_line (ConverterCopy.formatString (t ++ Js.NL))). split.
    + apply copy_formatString_marker_line, trailing_NL_block.
    + rewrite drop_last_element, map_id, join_split_lines.
      apply copy_formatString_drops_last.
  - intros u E. apply append_inv_tail in E. subst u.
    rewrite drop_last_element, join_split_lines.
    split; [reflexivity |].
    split; [apply json2yaml_formatString_drops_last
           | apply copy_formatString_drops_last].
  - intros _. rewrite join_split_lines.
    split; apply yamlConverter_formatString_keeps_last.
Qed.

(** The string "a" followed by one line feed. *)
Lemma formatString_trailing_newline_witness :
  Block.ends_with_newline ("a" ++ Js.NL) /\
  Block.ends_with_one_newline ("a" ++ Js.NL) /\
  Block.drops_artifact Json2Yaml.replace_unsupported ("a" ++ Js.NL)
    (Json2Yaml.formatString ("a" ++ Js.NL)) /\
  YamlConverter.formatString ("a" ++ Js.NL)
    = "|" ++ Js.NL ++ Js.join Js.NL ["a"; EmptyString].
Proof.
  assert (H : Block.ends_with_newline ("a" ++ Js.NL)) by now exists "a".
  assert (H1 : Block.ends_with_one_newline ("a" ++ Js.NL)).
  { exists "a". split; [reflexivity |].
    apply not_ends_with_newline. reflexivity. }
  split; [exact H |]. split; [exact H1 |].
  destruct (formatString_trailing_newline ("a" ++ Js.NL) H)
    as (_ & J & _ & _ & Y).
  split; [exact J |]. exact (proj1 (Y H1)).
Defined.

(** C5, as stated, fails: for "a" followed by a line feed [formatString] of
    [src/yamlConverter.ts] pops nothing, since its loop runs only while the
    string does not end with a line feed; the empty last element of the split
    is joined with the others and the content of the block ends with an
    empty line, where the other two copies emit the single line. *)
Theorem yamlConverter_formatString_keeps_artifact :
  YamlConverter.formatString ("a" ++ Js.NL) = "|" ++ Js.NL ++ "a" ++ Js.NL /\
  Js.split_lines (YamlConverter.formatString ("a" ++ Js.NL))
    = ["|"; "a"; EmptyString] /\
  Json2Yaml.formatString ("a" ++ Js.NL) = "|" ++ Js.NL ++ "a" /\
  ConverterCopy.formatString ("a" ++ Js.NL) = "|" ++ Js.NL ++ "a" /\
  YamlConverter.valueToYaml Demo.JSON_parse Demo.Number_toString
    (JArray [JString ("a" ++ Js.NL)]) 0
    = "- |" ++ Js.NL ++ "  a" ++ Js.NL ++ "  " /\
  Json2Yaml.valueToYaml Demo.JSON_parse Demo.Number_toString
    (JArray [JString ("a" ++ Js.NL)]) 0
    = "- |" ++ Js.NL ++ "  a" /\
  Block.ends_with_newline ("a" ++ Js.NL) /\
  ~ Block.drops_artifact (fun line => line) ("a" ++ Js.NL)
      (YamlConverter.formatString ("a" ++ Js.NL)).
Proof.
  repeat split; try reflexivity.
  - now exists "a".
  - intros (marker & Hin & E).
    destruct Hin as [<- | [<- | [<- | []]]]; discriminate E.
Qed.

(* ================================================================== *)
(** ** The value emitter: fuel, termination, unwrapping *)
(* ================================================================== *)

Section EmitterFacts.

Variable JSON_parse : string -> exn + jsvalue.
Variable Number_toString : PrimFloat.float -> string.
Variable formatString : string -> string.
Variable formatMultilineYaml : string -> string -> string -> list string.

Local Abbreviation emit :=
  (ValueEmitter.valueToYaml_fuel JSON_parse Number_toString
     formatString formatMultilineYaml).
Local Abbreviation valueToYaml :=
  (ValueEmitter.valueToYaml JSON_parse Number_toString
     formatString formatMultilineYaml).
Local Abbreviation array_items := (ValueEmitter.array_items formatMultilineYaml).
Local Abbreviation object_items := (ValueEmitter.object_items formatMultilineYaml).

(** One step of the emitter. *)
Lemma valueToYaml_fuel_step (fuel : nat) (value : jsvalue) (indent : nat) :
  emit (S fuel) value indent =
  match value with
  | JNull => Some "null"
  | JUndefined => Some "null"
  | JBool b => Some (if b then "true" else "false")
  | JNumber n => Some (ValueEmitter.number_to_yaml Number_toString n)
  | JString s =>
      match JSON_parse s with
      | inr parsed =>
          if is_string parsed then Some (formatString s)
          else emit fuel parsed indent
      | inl _ => Some (formatString s)
      end
  | JArray [] => Some "[]"
  | JArray items =>
      match array_items (fun item => emit fuel item (indent + 2))
              (Js.repeat_space indent) items [] with
      | Some lines => Some (Js.join Js.NL lines)
      | None => None
      end
  | JObject [] => Some "{}"
  | JObject fields =>
      match object_items (fun v => emit fuel v (indent + 2))
              (Js.repeat_space indent) fields [] with
      | Some lines => Some (Js.join Js.NL lines)
      | None => None
      end
  end.
Proof. reflexivity. Qed.

Lemma array_items_mono (r1 r2 : jsvalue -> option string) (indentStr : string)
    (value : list jsvalue) :
  (forall item y, In item value -> r1 item = Some y -> r2 item = Some y) ->
  forall items lines,
    array_items r1 indentStr value items = Some lines ->
    array_items r2 indentStr value items = Some lines.
Proof.
  induction value as [| item rest IH]; intros Hr items lines H; simpl in *.
  - exact H.
  - destruct (r1 item) as [y |] eqn:E; [| discriminate].
    rewrite (Hr item y (or_introl eq_refl) E).
    apply IH; [| exact H]. intros it y' Hin. apply Hr. now right.
Qed.

Lemma object_items_mono (r1 r2 : jsvalue -> option string) (indentStr : string)
    (fields : list (string * jsvalue)) :
  (forall k v y, In (k, v) fields -> r1 v = Some y -> r2 v = Some y) ->
  forall items lines,
    object_items r1 indentStr fields items = Some lines ->
    object_items r2 indentStr fields items = Some lines.
Proof.
  induction fields as [| [key v] rest IH]; intros Hr items lines H; simpl in *.
  - exact H.
  - destruct (r1 v) as [y |] eqn:E; [| discriminate].
    rewrite (Hr key v y (or_introl eq_refl) E).
    apply IH; [| exact H]. intros k' v' y' Hin. apply (Hr k' v'). now right.
Qed.

(** More fuel does not change a result. *)
Lemma valueToYaml_fuel_mono (fuel : nat) :
  forall value indent yaml,
    emit fuel value indent = Some yaml ->
    forall fuel', fuel <= fuel' -> emit fuel' value indent = Some yaml.
Proof.
  induction fuel as [| fuel IH]; intros value indent yaml H fuel' Hle.
  - discriminate H.
  - destruct fuel' as [| fuel']; [lia |].
    assert (Hle' : fuel <= fuel') by lia.
    rewrite valueToYaml_fuel_step in *.
    destruct value as [| | b | n | s | items | fields]; try exact H.
    + destruct (JSON_parse s) as [e | parsed]; [exact H |].
      destruct (is_string parsed); [exact H |]. now apply (IH _ _ _ H).
    + destruct items as [| item rest]; [exact H |].
      destruct (array_items _ _ (item :: rest) []) as [lines |] eqn:E;
        [| discriminate].
      erewrite array_items_mono; [exact H | | exact E].
      intros it y _ Hy. now apply (IH _ _ _ Hy).
    + destruct fields as [| field rest]; [exact H |].
      destruct (object_items _ _ (field :: rest) []) as [lines |] eqn:E;
        [| discriminate].
      erewrite object_items_mono; [exact H | | exact E].
      intros k v y _ Hy. now apply (IH _ _ _ Hy).
Qed.

Lemma array_items_total (r : jsvalue -> option string) (indentStr : string)
    (value : list jsvalue) :
  (forall item, In item value -> exists y, r item = Some y) ->
  forall items, exists lines, array_items r indentStr value items = Some lines.
Proof.
  induction value as [| item rest IH]; intros Hr items; simpl.
  - now exists items.
  - destruct (Hr item (or_introl eq_refl)) as [y ->].
    apply IH. intros it Hin. apply Hr. now right.
Qed.

Lemma object_items_total (r : jsvalue -> option string) (indentStr : string)
    (fields : list (string * jsvalue)) :
  (forall k v, In (k, v) fields -> exists y, r v = Some y) ->
  forall items, exists lines, object_items r indentStr fields items = Some lines.
Proof.
  induction fields as [| [key v] rest IH]; intros Hr items; simpl.
  - now exists items.
  - destruct (Hr key v (or_introl eq_refl)) as [y ->].
    apply IH. intros k' v' Hin. apply (Hr k' v'). now right.
Qed.

Lemma weight_item (item : jsvalue) (items : list jsvalue) :
  In item items -> weight item <= list_sum (map weight items).
Proof.
  induction items as [| x rest IH]; simpl; intros H; [contradiction |].
  destruct H as [-> | H]; [lia |]. specialize (IH H). lia.
Qed.

Lemma weight_field (k : string) (v : jsvalue) (fields : list (string * jsvalue)) :
  In (k, v) fields ->
  weight v <= list_sum (map (fun kv => weight (snd kv)) fields).
Proof.
  induction fields as [| x rest IH]; simpl; intros H; [contradiction |].
  destruct H as [-> | H]; [simpl; lia |]. specialize (IH H). lia.
Qed.

(** What the emitter needs from [JSON.parse]: a text is at least as long as
    the weight of the non-string value it denotes. *)
Hypothesis JSON_parse_weight :
  forall s v, JSON_parse s = inr v -> is_string v = false ->
              weight v <= String.length s.

(** [weight value] units of fuel are enough. *)
Lemma valueToYaml_fuel_enough (fuel : nat) :
  forall value indent,
    weight value <= fuel -> exists yaml, emit fuel value indent = Some yaml.
Proof.
  induction fuel as [| fuel IH]; intros value indent Hw.
  - destruct value; simpl in Hw; lia.
  - rewrite valueToYaml_fuel_step.
    destruct value as [| | b | n | s | items | fields]; try (eexists; reflexivity).
    + destruct (JSON_parse s) as [e | parsed] eqn:E; [eexists; reflexivity |].
      destruct (is_string parsed) eqn:Es; [eexists; reflexivity |].
      apply IH. pose proof (JSON_parse_weight s parsed E Es). simpl in Hw. lia.
    + destruct items as [| item rest]; [eexists; reflexivity |].
      destruct (array_items_total (fun it => emit fuel it (indent + 2))
                  (Js.repeat_space indent) (item :: rest)) with (items := @nil string)
        as [lines ->]; [| eexists; reflexivity].
      intros it Hin. apply IH. apply weight_item in Hin.
      change (weight (JArray (item :: rest)))
        with (S (list_sum (map weight (item :: rest)))) in Hw. lia.
    + destruct fields as [| field rest]; [eexists; reflexivity |].
      destruct (object_items_total (fun v => emit fuel v (indent + 2))
                  (Js.repeat_space indent) (field :: rest)) with (items := @nil string)
        as [lines ->]; [| eexists; reflexivity].
      intros k v Hin. apply IH. apply weight_field in Hin.
      change (weight (JObject (field :: rest)))
        with (S (list_sum (map (fun kv => weight (snd kv)) (field :: rest)))) in Hw.
      lia.
Qed.

(** C7.  A string that parses as JSON to a value that is not a string is
    rendered as that value at the same indent; the unwrapping cannot go on
    for ever, and the emitter returns a text for every value tree: with
    [weight value] or more units of fuel it returns one and the same text.
    [JSON.parse] is any function under which a text is at least as long as
    the weight of the non-string value it denotes. *)
Theorem valueToYaml_unwraps_and_terminates :
  (forall s indent parsed,
      JSON_parse s = inr parsed -> is_string parsed = false ->
      valueToYaml (JString s) indent = valueToYaml parsed indent) /\
  (forall value indent,
      exists yaml,
        valueToYaml value indent = yaml /\
        forall fuel, weight value <= fuel -> emit fuel value indent = Some yaml).
Proof.
  split.
  - intros s indent parsed Hp Hs. unfold ValueEmitter.valueToYaml.
    change (weight (JString s)) with (S (String.length s)).
    rewrite valueToYaml_fuel_step, Hp, Hs.
    destruct (valueToYaml_fuel_enough (weight parsed) parsed indent (le_n _))
      as [yaml Hy].
    rewrite Hy.
    rewrite (valueToYaml_fuel_mono _ _ _ _ Hy (String.length s));
      [reflexivity |].
    now apply JSON_parse_weight.
  - intros value indent.
    destruct (valueToYaml_fuel_enough (weight value) value indent (le_n _))
      as [yaml Hy].
    exists yaml. split.
    + unfold ValueEmitter.valueToYaml. now rewrite Hy.
    + intros fuel Hle. exact (valueToYaml_fuel_mono _ _ _ _ Hy fuel Hle).
Qed.

End EmitterFacts.

Lemma demo_parse_weight :
  forall s v, Demo.JSON_parse s = inr v -> is_string v = false ->
              weight v <= String.length s.
Proof.
  intros s v. unfold Demo.JSON_parse, Demo.documents, Demo.lookup.
  repeat match goal with
         | |- context [String.eqb s ?doc] =>
             destruct (String.eqb_spec s doc) as [-> | _]
         end;
    intros H Hs; inversion H; subst; try discriminate Hs;
    cbn; lia.
Qed.

(** The unwrapping of the text of an array that holds the text of [null]. *)
Lemma valueToYaml_unwraps_and_terminates_witness :
  (forall s v, Demo.JSON_parse s = inr v -> is_string v = false ->
               weight v <= String.length s) /\
  YamlConverter.valueToYaml Demo.JSON_parse Demo.Number_toString
    (JString ("[" ++ Demo.quote "null" ++ "]")) 2
  = YamlConverter.valueToYaml Demo.JSON_parse Demo.Number_toString
      (JArray [JString "null"]) 2.
Proof.
  split; [exact demo_parse_weight |].
  apply (proj1 (valueToYaml_unwraps_and_terminates
                  Demo.JSON_parse Demo.Number_toString
                  YamlConverter.formatString YamlConverter.formatMultilineYaml
                  demo_parse_weight)).
  - reflexivity.
  - reflexivity.
Defined.

(* ================================================================== *)
(** ** Indentation reflow *)
(* ================================================================== *)

Lemma is_block_marker_spec (line : string) :
  is_block_marker line = true <-> In line Block.markers.
Proof.
  unfold is_block_marker, Block.markers.
  repeat rewrite orb_true_iff. repeat rewrite String.eqb_eq. simpl.
  intuition congruence.
Qed.

(** The reflow of [scripts/json2yaml.js] on any text. *)
Lemma json2yaml_formatMultilineYaml_reflowed (yamlValue prefix indentStr : string) :
  Block.reflowed yamlValue prefix indentStr
    (Json2Yaml.formatMultilineYaml yamlValue prefix indentStr).
Proof.
  intros first others E. unfold Json2Yaml.formatMultilineYaml.
  rewrite E. cbv zeta. simpl hd. simpl tl.
  destruct (is_block_marker first) eqn:M.
  - apply is_block_marker_spec in M. split; [reflexivity | tauto].
  - split; [| reflexivity]. intros H. apply is_block_marker_spec in H.
    congruence.
Qed.

(** The reflow of the copy after [src/extension.ts] on any text. *)
Lemma copy_formatMultilineYaml_reflowed (yamlValue prefix indentStr : string) :
  Block.reflowed yamlValue prefix indentStr
    (ConverterCopy.formatMultilineYaml yamlValue prefix indentStr).
Proof.
  intros first others E. unfold ConverterCopy.formatMultilineYaml.
  rewrite E. cbv zeta. simpl hd. simpl tl.
  destruct (is_block_marker first) eqn:M.
  - apply is_block_marker_spec in M. split; [reflexivity | tauto].
  - split; [| reflexivity]. intros H. apply is_block_marker_spec in H.
    congruence.
Qed.

(** The reflow of [src/yamlConverter.ts] knows the bare marker only: it
    agrees with the rule on every text whose first line carries no chomping
    indicator. *)
Lemma yamlConverter_formatMultilineYaml_reflowed
    (yamlValue prefix indentStr : string) :
  Block.plain_marker yamlValue ->
  Block.reflowed yamlValue prefix indentStr
    (YamlConverter.formatMultilineYaml yamlValue prefix indentStr).
Proof.
  intros [Hplus Hminus] first others E.
  unfold Block.marker_line in Hplus, Hminus. rewrite E in Hplus, Hminus.
  simpl in Hplus, Hminus.
  unfold YamlConverter.formatMultilineYaml. rewrite E. cbv zeta. simpl hd. simpl tl.
  destruct (String.eqb_spec first "|") as [-> | Hne].
  - split; [reflexivity |]. intros H. elim H. simpl. tauto.
  - split; [| reflexivity]. intros [H | [H | [H | []]]]; congruence.
Qed.

Lemma head_not_bar_plain (s : string) :
  Block.head_not_bar s -> Block.plain_marker s.
Proof.
  unfold Block.plain_marker, Block.marker_line.
  destruct s as [| c rest]; simpl; intros H.
  - split; discriminate.
  - destruct (Ascii.eqb c Js.LF); [split; discriminate |].
    destruct (Js.split_lines rest); simpl; split; intros E; inversion E;
      congruence.
Qed.

Lemma head_not_bar_append (a b : string) :
  a <> EmptyString -> Block.head_not_bar a -> Block.head_not_bar (a ++ b).
Proof. destruct a; simpl; [congruence | auto]. Qed.

Lemma head_not_bar_indented (indent : nat) (rest : string) :
  Block.head_not_bar rest ->
  Block.head_not_bar (Js.repeat_space indent ++ rest).
Proof. destruct indent; simpl; [auto | intros _; discriminate]. Qed.

Lemma needsQuotes_false_head (s : string) :
  needsQuotes s = false -> Block.head_not_bar s.
Proof.
  destruct s as [| c rest]; simpl; [trivial |].
  intros H E. subst c. discriminate H.
Qed.

Lemma keyStr_head (key rest : string) :
  Block.head_not_bar (ValueEmitter.keyStr key ++ ": " ++ rest).
Proof.
  unfold ValueEmitter.keyStr. destruct (needsQuotes key) eqn:E.
  - simpl. discriminate.
  - apply needsQuotes_false_head in E. destruct key; simpl in *; [discriminate | exact E].
Qed.

Lemma join_head (sep first : string) (others : list string) :
  exists rest, Js.join sep (first :: others) = first ++ rest.
Proof.
  destruct others as [| second others].
  - exists EmptyString. simpl. now rewrite append_nil_r.
  - eexists. apply join_cons2.
Qed.

Lemma yamlConverter_formatString_plain (s : string) :
  Block.plain_marker (YamlConverter.formatString s).
Proof.
  destruct (Js.includes s Js.NL || Js.includes s ": ") eqn:B.
  - assert (Hb : Block.is_block_value s).
    { apply orb_true_iff in B. unfold Block.is_block_value.
      now rewrite <- !includes_iff. }
    pose proof (yamlConverter_formatString_marker s Hb) as M.
    unfold Block.plain_marker. rewrite M. split; discriminate.
  - apply head_not_bar_plain. unfold YamlConverter.formatString. rewrite B.
    cbv zeta.
    destruct (needsQuotes s || negb (String.eqb (escapeString s) s)) eqn:Q.
    + simpl. discriminate.
    + apply orb_false_iff in Q. now apply needsQuotes_false_head.
Qed.

Section YamlConverterLines.

Variable render : jsvalue -> option string.
Variable indent : nat.

Local Abbreviation fm := YamlConverter.formatMultilineYaml.
Local Abbreviation indentStr := (Js.repeat_space indent).

Lemma array_items_grows (value : list jsvalue) :
  forall items lines,
    ValueEmitter.array_items fm render indentStr value items = Some lines ->
    exists more, lines = (items ++ more)%list.
Proof.
  induction value as [| item rest IH]; intros items lines H; simpl in H.
  - inversion H. exists []. now rewrite app_nil_r.
  - destruct (render item) as [y |]; [| discriminate].
    apply IH in H. destruct H as [more ->]. unfold Js.push_all.
    rewrite <- app_assoc. now eexists.
Qed.

Lemma object_items_grows (fields : list (string * jsvalue)) :
  forall items lines,
    ValueEmitter.object_items fm render indentStr fields items = Some lines ->
    exists more, lines = (items ++ more)%list.
Proof.
  induction fields as [| [key v] rest IH]; intros items lines H; simpl in H.
  - inversion H. exists []. now rewrite app_nil_r.
  - destruct (render v) as [y |]; [| discriminate].
    apply IH in H. destruct H as [more ->]. unfold Js.push_all.
    rewrite <- app_assoc. now eexists.
Qed.

(** The first line [formatMultilineYaml] returns begins with the indent and
    the prefix. *)
Lemma yamlConverter_reflow_head (yamlValue prefix : string) :
  exists rest others,
    fm yamlValue prefix indentStr = (indentStr ++ prefix ++ rest) :: others.
Proof.
  unfold YamlConverter.formatMultilineYaml. cbv zeta.
  destruct (String.eqb _ "|").
  - now do 2 eexists.
  - exists EmptyString. eexists. now rewrite append_nil_r.
Qed.

Lemma array_lines_head (item : jsvalue) (rest : list jsvalue)
    (lines : list string) :
  ValueEmitter.array_items fm render indentStr (item :: rest) [] = Some lines ->
  Block.head_not_bar (Js.join Js.NL lines).
Proof.
  cbn [ValueEmitter.array_items]. destruct (render item) as [y |]; [| discriminate].
  change (Js.push_all [] ?new) with new.
  assert (F : exists x others,
             (if ValueEmitter.is_block y then fm y "- " indentStr
              else [indentStr ++ "- " ++ y]) = (indentStr ++ "- " ++ x) :: others).
  { destruct (ValueEmitter.is_block y).
    - apply yamlConverter_reflow_head.
    - now do 2 eexists. }
  destruct F as (x & others & ->).
  intros H. apply array_items_grows in H. destruct H as [more ->].
  rewrite <- app_comm_cons.
  destruct (join_head Js.NL (indentStr ++ "- " ++ x) (others ++ more)) as [t ->].
  rewrite append_assoc. apply head_not_bar_indented. simpl. discriminate.
Qed.

Lemma object_lines_head (field : string * jsvalue)
    (rest : list (string * jsvalue)) (lines : list string) :
  ValueEmitter.object_items fm render indentStr (field :: rest) [] = Some lines ->
  Block.head_not_bar (Js.join Js.NL lines).
Proof.
  destruct field as [key v]. cbn [ValueEmitter.object_items].
  destruct (render v) as [y |]; [| discriminate].
  change (Js.push_all [] ?new) with new.
  assert (F : exists x others,
             (if ValueEmitter.is_block y
              then fm y (ValueEmitter.keyStr key ++ ": ") indentStr
              else [indentStr ++ ValueEmitter.keyStr key ++ ": " ++ y])
             = (indentStr ++ ValueEmitter.keyStr key ++ ": " ++ x) :: others).
  { destruct (ValueEmitter.is_block y).
    - destruct (yamlConverter_reflow_head y (ValueEmitter.keyStr key ++ ": "))
        as (x & others & ->).
      exists x, others. now rewrite append_assoc.
    - now do 2 eexists. }
  destruct F as (x & others & ->).
  intros H. apply object_items_grows in H. destruct H as [more ->].
  rewrite <- app_comm_cons.
  destruct (join_head Js.NL (indentStr ++ ValueEmitter.keyStr key ++ ": " ++ x)
              (others ++ more)) as [t ->].
  rewrite append_assoc. apply head_not_bar_indented.
  rewrite append_assoc. rewrite append_assoc. apply keyStr_head.
Qed.

End YamlConverterLines.

Section YamlConverterRendered.

Variable JSON_parse : string -> exn + jsvalue.
Variable Number_toString : PrimFloat.float -> string.

(** The decimal text of a number has no block marker on its first line. *)
Hypothesis Number_toString_plain :
  forall n, Block.plain_marker (Number_toString n).

(** No text [valueToYaml] of [src/yamlConverter.ts] returns has a marker with
    a chomping indicator on its first line. *)
Lemma yamlConverter_rendered_plain (fuel : nat) :
  forall value indent yamlValue,
    YamlConverter.valueToYaml_fuel JSON_parse Number_toString fuel value indent
      = Some yamlValue ->
    Block.plain_marker yamlValue.
Proof.
  unfold YamlConverter.valueToYaml_fuel.
  induction fuel as [| fuel IH]; intros value indent yamlValue H;
    [discriminate H |].
  rewrite valueToYaml_fuel_step in H.
  destruct value as [| | b | n | s | items | fields].
  - inversion H. apply head_not_bar_plain. simpl. discriminate.
  - inversion H. apply head_not_bar_plain. simpl. discriminate.
  - inversion H. apply head_not_bar_plain. destruct b; simpl; discriminate.
  - inversion H. unfold ValueEmitter.number_to_yaml.
    destruct (PrimFloat.is_nan n);
      [apply head_not_bar_plain; simpl; discriminate |].
    destruct (negb (PrimFloat.is_finite n)); [| apply Number_toString_plain].
    destruct (PrimFloat.ltb PrimFloat.zero n);
      apply head_not_bar_plain; simpl; discriminate.
  - destruct (JSON_parse s) as [e | parsed].
    + inversion H. apply yamlConverter_formatString_plain.
    + destruct (is_string parsed).
      * inversion H. apply yamlConverter_formatString_plain.
      * exact (IH _ _ _ H).
  - destruct items as [| item rest].
    + inversion H. apply head_not_bar_plain. simpl. discriminate.
    + destruct (ValueEmitter.array_items _ _ _ (item :: rest) []) as [lines |] eqn:E;
        [| discriminate].
      inversion H. apply head_not_bar_plain. exact (array_lines_head _ _ _ _ _ E).
  - destruct fields as [| field rest].
    + inversion H. apply head_not_bar_plain. simpl. discriminate.
    + destruct (ValueEmitter.object_items _ _ _ (field :: rest) []) as [lines |] eqn:E;
        [| discriminate].
      inversion H. apply head_not_bar_plain. exact (object_lines_head _ _ _ _ _ E).
Qed.

End YamlConverterRendered.

(** C4.  Indentation reflow follows the rule of the specification: when the
    first line of the rendered value is one of the markers [|], [|+], [|-], the
    marker joins the indent and the prefix on the first line and every other
    line is indented two more columns; otherwise the indent and the prefix
    stand alone on a line and the lines of the value follow unchanged.  The
    two newer copies do so on every text; [src/yamlConverter.ts], whose
    formatter writes the bare marker only, does so on every value its emitter
    renders, the decimal text of a number having no marker on its first
    line. *)
Theorem formatMultilineYaml_reflow
    (JSON_parse : string -> exn + jsvalue)
    (Number_toString : PrimFloat.float -> string) :
  (forall n, Block.plain_marker (Number_toString n)) ->
  (forall yamlValue prefix indentStr,
      Block.reflowed yamlValue prefix indentStr
        (Json2Yaml.formatMultilineYaml yamlValue prefix indentStr)) /\
  (forall yamlValue prefix indentStr,
      Block.reflowed yamlValue prefix indentStr
        (ConverterCopy.formatMultilineYaml yamlValue prefix indentStr)) /\
  (forall fuel value indent yamlValue prefix indentStr,
      YamlConverter.valueToYaml_fuel JSON_parse Number_toString fuel value indent
        = Some yamlValue ->
      Block.reflowed yamlValue prefix indentStr
        (YamlConverter.formatMultilineYaml yamlValue prefix indentStr)).
Proof.
  intros Hnum. split; [| split].
  - apply json2yaml_formatMultilineYaml_reflowed.
  - apply copy_formatMultilineYaml_reflowed.
  - intros fuel value indent yamlValue prefix indentStr H.
    apply yamlConverter_formatMultilineYaml_reflowed.
    exact (yamlConverter_rendered_plain _ _ Hnum _ _ _ _ H).
Qed.

Lemma demo_number_plain (n : PrimFloat.float) :
  Block.plain_marker (Demo.Number_toString n).
Proof. apply head_not_bar_plain. simpl. discriminate. Qed.

(** The reflow of the block literal for [k: v] under the key [a], and of a
    nested sequence under the same key. *)
Lemma formatMultilineYaml_reflow_witness :
  (forall n, Block.plain_marker (Demo.Number_toString n)) /\
  YamlConverter.formatMultilineYaml ("|" ++ Js.NL ++ "k: v") "a: " "  "
    = ["  a: |"; "    k: v"] /\
  Json2Yaml.formatMultilineYaml ("|-" ++ Js.NL ++ "k: v") "a: " "  "
    = ["  a: |-"; "    k: v"] /\
  YamlConverter.formatMultilineYaml ("    - 1" ++ Js.NL ++ "    - 2") "a: " "  "
    = ["  a: "; "    - 1"; "    - 2"].
Proof.
  pose proof (formatMultilineYaml_reflow Demo.JSON_parse Demo.Number_toString
                demo_number_plain) as (Hscript & _ & Hconv).
  split; [exact demo_number_plain |]. split; [| split].
  - refine (proj1 (Hconv 1 (JString "k: v") 4 ("|" ++ Js.NL ++ "k: v")
                     "a: " "  " eq_refl "|" ["k: v"] eq_refl) _).
    simpl. tauto.
  - refine (proj1 (Hscript ("|-" ++ Js.NL ++ "k: v") "a: " "  "
                     "|-" ["k: v"] eq_refl) _).
    simpl. tauto.
  - reflexivity.
Defined.

(* ================================================================== *)
(** ** Quoting of keys and of scalar values *)
(* ================================================================== *)

Lemma drop_last_snoc (a : string) (c : ascii) :
  Js.drop_last (a ++ String c EmptyString) = a.
Proof.
  induction a as [| x a IH]; [reflexivity |].
  simpl. rewrite IH. destruct a; reflexivity.
Qed.

(** [escapeString] is the body [JSON.stringify] writes between the quotes. *)
Lemma escapeString_body (s : string) : escapeString s = Js.quote_body s.
Proof.
  unfold escapeString, Js.JSON_stringify, Js.DQ. simpl.
  apply drop_last_snoc.
Qed.

Lemma quote_char_length (c : ascii) : 1 <= String.length (Js.quote_char c).
Proof.
  unfold Js.quote_char.
  repeat match goal with
         | |- context [if ?b then _ else _] => destruct b
         end; simpl; lia.
Qed.

Lemma quote_body_length (s : string) :
  String.length s <= String.length (Js.quote_body s).
Proof.
  induction s as [| c s IH]; simpl; [lia |].
  rewrite length_append. pose proof (quote_char_length c). lia.
Qed.

(** No string is its own double-quoted form. *)
Lemma quoted_differs (s : string) : s <> Block.quoted s.
Proof.
  intros E. apply (f_equal String.length) in E.
  unfold Block.quoted in E. rewrite escapeString_body in E.
  simpl in E. rewrite length_append in E. simpl in E.
  pose proof (quote_body_length s). lia.
Qed.


(* ================================================================== *)
(** ** The record driver *)
(* ================================================================== *)

Section DriverFacts.

Variable jsonToYaml : string -> exn + string.

Local Abbreviation convert_loop := (Extension.convert_loop jsonToYaml).

(** The loop appends the entries of the records that are left, in order. *)
Lemma convert_loop_entries (lines : list string) :
  forall i yamlLines,
    convert_loop i lines yamlLines
    = (yamlLines
         ++ flat_map (Stream.entries jsonToYaml) (Stream.records (S i) lines))%list.
Proof.
  induction lines as [| raw rest IH]; intros i yamlLines;
    cbn [Extension.convert_loop Stream.records].
  - cbn [flat_map]. now rewrite app_nil_r.
  - destruct (String.eqb (Js.trim raw) EmptyString); [apply IH |].
    cbn [flat_map]. unfold Stream.entries at 1. cbn [fst snd].
    destruct (jsonToYaml (Js.trim raw)) as [error | yamlContent];
      rewrite IH; unfold Js.push_all, Stream.diagnostic;
      rewrite <- app_assoc; rewrite ?Nat.add_1_r; reflexivity.
Qed.

(** The loop reads a line through [trim] only. *)
Lemma convert_loop_trim (lines lines' : list string) :
  map Js.trim lines = map Js.trim lines' ->
  forall i yamlLines,
    convert_loop i lines yamlLines = convert_loop i lines' yamlLines.
Proof.
  revert lines'. induction lines as [| raw rest IH];
    intros [| raw' rest'] E i yamlLines; try discriminate E; [reflexivity |].
  simpl in E. inversion E as [[Eraw Erest]].
  simpl. rewrite Eraw.
  destruct (String.eqb (Js.trim raw') EmptyString); [now apply IH |].
  destruct (jsonToYaml (Js.trim raw')); now apply IH.
Qed.

End DriverFacts.

Lemma records_numbers (lines : list string) :
  forall n k line,
    In (k, line) (Stream.records n lines) <->
    exists raw, n <= k /\ nth_error lines (k - n) = Some raw /\
                line = Js.trim raw /\ line <> EmptyString.
Proof.
  induction lines as [| raw rest IH]; intros n k line; simpl.
  - split; [contradiction |]. intros (r & _ & H & _).
    destruct (k - n); discriminate H.
  - assert (Step : In (k, line) (Stream.records (S n) rest) <->
                   exists r, S n <= k /\ nth_error (raw :: rest) (k - n) = Some r /\
                             line = Js.trim r /\ line <> EmptyString).
    { rewrite IH. split; intros (r & Hle & Hn & Hrest); exists r.
      - split; [lia |]. replace (k - n) with (S (k - S n)) by lia. now split.
      - split; [lia |]. replace (k - n) with (S (k - S n)) in Hn by lia.
        now split. }
    destruct (String.eqb_spec (Js.trim raw) EmptyString) as [E | E].
    + rewrite Step. split.
      * intros (r & Hle & H). exists r. split; [lia | exact H].
      * intros (r & Hle & Hn & Hl & Hne).
        destruct (Nat.eq_dec k n) as [-> | Hkn].
        -- rewrite Nat.sub_diag in Hn. simpl in Hn. inversion Hn; subst.
           congruence.
        -- exists r. split; [lia | now repeat split].
    + simpl. rewrite Step. split.
      * intros [H | (r & Hle & H)].
        -- inversion H; subst. exists raw. rewrite Nat.sub_diag.
           now repeat split.
        -- exists r. split; [lia | exact H].
      * intros (r & Hle & Hn & Hl & Hne).
        destruct (Nat.eq_dec k n) as [-> | Hkn].
        -- left. rewrite Nat.sub_diag in Hn. simpl in Hn. inversion Hn; subst.
           reflexivity.
        -- right. exists r. split; [lia | now repeat split].
Qed.

(** The records come in the order of the input lines. *)
Lemma records_in_order (lines : list string) :
  forall n, StronglySorted lt (map fst (Stream.records n lines)) /\
            Forall (le n) (map fst (Stream.records n lines)).
Proof.
  induction lines as [| raw rest IH]; intros n; simpl.
  - split; constructor.
  - destruct (IH (S n)) as [Hs Hf].
    assert (Hf' : Forall (le n) (map fst (Stream.records (S n) rest))).
    { eapply Forall_impl; [| exact Hf]. intros; lia. }
    destruct (String.eqb (Js.trim raw) EmptyString); [now split |].
    simpl. split; constructor; auto.
Qed.

(** C2, as amended.  The driver returns a text for every input.  It takes the
    non-blank lines in input order, each trimmed and with its 1-based number
    in the input; a line that parses contributes its rendered YAML, a line
    that does not parse contributes the two diagnostic lines as two entries;
    all entries are joined with one blank line between them, so that a blank
    line also separates the two diagnostic lines of a record. *)
Theorem convertJsonlToYaml_joins_entries
    (JSON_parse : string -> exn + jsvalue)
    (Number_toString : PrimFloat.float -> string) (jsonlText : string) :
  let jsonToYaml := YamlConverter.jsonToYaml JSON_parse Number_toString in
  let records := Stream.records 1 (Js.split_lines jsonlText) in
  Extension.convertJsonlToYaml JSON_parse Number_toString jsonlText
    = Js.join (Js.NL ++ Js.NL) (flat_map (Stream.entries jsonToYaml) records) /\
  (forall n line,
      Stream.entries jsonToYaml (n, line) =
      match JSON_parse line with
      | inr parsed =>
          [YamlConverter.valueToYaml JSON_parse Number_toString parsed 0]
      | inl error =>
          [ "# Error converting line " ++ Js.decimal n
              ++ ": Error: Failed to parse JSON: " ++ exn_toString error;
            "# Original content: " ++ line ]
      end) /\
  (forall n line,
      In (n, line) records <->
      exists raw, 1 <= n /\ nth_error (Js.split_lines jsonlText) (n - 1) = Some raw /\
                  line = Js.trim raw /\ line <> EmptyString) /\
  StronglySorted lt (map fst records).
Proof.
  cbv zeta. split; [| split; [| split]].
  - unfold Extension.convertJsonlToYaml, Extension.convertJsonlToYaml_with.
    now rewrite convert_loop_entries.
  - intros n line.
    unfold Stream.entries, YamlConverter.jsonToYaml, ValueEmitter.jsonToYaml.
    cbn [fst snd]. destruct (JSON_parse line); reflexivity.
  - intros n line. apply records_numbers.
  - apply records_in_order.
Qed.

(** C2, as stated, fails: the two diagnostic lines are two entries of the
    joined array, so a blank line stands between them; the specification
    has them on consecutive lines of one block. *)
Lemma diagnostic_lines_blank_between :
  Extension.convertJsonlToYaml Demo.JSON_parse Demo.Number_toString "oops"
    = "# Error converting line 1: Error: Failed to parse JSON: SyntaxError: Unexpected token in JSON"
        ++ Js.NL ++ Js.NL ++ "# Original content: oops" /\
  Stream.renderRecordStream
      (YamlConverter.jsonToYaml Demo.JSON_parse Demo.Number_toString) "oops"
    = "# Error converting line 1: Error: Failed to parse JSON: SyntaxError: Unexpected token in JSON"
        ++ Js.NL ++ "# Original content: oops" /\
  Extension.convertJsonlToYaml Demo.JSON_parse Demo.Number_toString "oops"
    <> Stream.renderRecordStream
         (YamlConverter.jsonToYaml Demo.JSON_parse Demo.Number_toString) "oops".
Proof. repeat split; try reflexivity. vm_compute. discriminate. Qed.

(* ------------------------------------------------------------------ *)
(** *** Trimming *)

Lemma all_space_cons (c : ascii) (s : string) :
  Stream.all_space (String c s) <-> Js.is_space c = true /\ Stream.all_space s.
Proof.
  unfold Stream.all_space. simpl. rewrite is_space_whitespace. split.
  - intros H. split; [apply H; now left | intros d Hd; apply H; now right].
  - intros [Hc Hs] d [<- | Hd]; auto.
Qed.

Lemma trimStart_pad (w s : string) :
  Stream.all_space w -> Js.trimStart (w ++ s) = Js.trimStart s.
Proof.
  induction w as [| c w IH]; intros H; [reflexivity |].
  apply all_space_cons in H. destruct H as [Hc Hw].
  simpl. rewrite Hc. now apply IH.
Qed.

Lemma trimEnd_all_space (w : string) :
  Stream.all_space w -> Js.trimEnd w = EmptyString.
Proof.
  induction w as [| c w IH]; intros H; [reflexivity |].
  apply all_space_cons in H. destruct H as [Hc Hw].
  simpl. rewrite (IH Hw), Hc. reflexivity.
Qed.

Lemma trimEnd_pad (s w : string) :
  Stream.all_space w -> Js.trimEnd (s ++ w) = Js.trimEnd s.
Proof.
  intros H. induction s as [| c s IH]; simpl.
  - now apply trimEnd_all_space.
  - now rewrite IH.
Qed.

Lemma trim_pad_right (s w : string) :
  Stream.all_space w -> Js.trim (s ++ w) = Js.trim s.
Proof.
  intros H. unfold Js.trim. induction s as [| c s IH]; simpl.
  - rewrite <- (append_nil_r w), trimStart_pad by exact H. reflexivity.
  - destruct (Js.is_space c); [exact IH |].
    exact (trimEnd_pad (String c s) w H).
Qed.

(** Whitespace around a text does not change what [trim] returns. *)
Lemma trim_pad (w1 s w2 : string) :
  Stream.all_space w1 -> Stream.all_space w2 ->
  Js.trim (w1 ++ s ++ w2) = Js.trim s.
Proof.
  intros H1 H2. rewrite <- (trim_pad_right s w2 H2).
  unfold Js.trim. now rewrite trimStart_pad.
Qed.

Lemma trim_all_space (w : string) :
  Stream.all_space w -> Js.trim w = EmptyString.
Proof.
  intros H. exact (trim_pad_right EmptyString w H).
Qed.

(* ================================================================== *)
(** ** The string escaper *)
(* ================================================================== *)

Lemma chars_append (a b : string) :
  Rules.chars (a ++ b) = (Rules.chars a ++ Rules.chars b)%list.
Proof. induction a; simpl; congruence. Qed.

Lemma quote_body_append (a b : string) :
  Js.quote_body (a ++ b) = Js.quote_body a ++ Js.quote_body b.
Proof.
  induction a as [| c a IH]; simpl; [reflexivity |].
  now rewrite IH, append_assoc.
Qed.

Lemma plain_char_dec (c : ascii) :
  Escape.plain_char c \/ ~ Escape.plain_char c.
Proof.
  unfold Escape.plain_char.
  destruct (le_lt_dec 32 (Js.code c)); [| right; lia].
  destruct (ascii_dec c Js.DQUOTE); [right; tauto |].
  destruct (ascii_dec c Js.BACKSLASH); [right; tauto |].
  left. tauto.
Qed.

Lemma quote_char_plain (c : ascii) :
  Escape.plain_char c -> Js.quote_char c = String c EmptyString.
Proof.
  unfold Escape.plain_char.
  each_char c; vm_compute; intros (H1 & H2 & H3);
    try reflexivity; try congruence; exfalso; lia.
Qed.

Lemma quote_char_shape (c : ascii) :
  Escape.plain_char c \/
  exists x rest, Js.quote_char c = String Js.BACKSLASH (String x rest).
Proof.
  unfold Escape.plain_char.
  each_char c;
    first [ right; do 2 eexists; reflexivity
          | left; vm_compute; repeat split; (lia || discriminate) ].
Qed.

Lemma quote_char_escaped (c : ascii) :
  ~ Escape.plain_char c ->
  exists x rest, Js.quote_char c = String Js.BACKSLASH (String x rest).
Proof.
  intros H. destruct (quote_char_shape c) as [P | E]; [contradiction | exact E].
Qed.

(** On the code units of the model [Js.quote_body] copies a string exactly
    when every code unit of it is plain. *)
Lemma quote_body_fixed_iff (s : string) :
  Js.quote_body s = s <->
  forall c, In c (Rules.chars s) -> Escape.plain_char c.
Proof.
  induction s as [| c s IH]; simpl.
  - split; [intros _ d [] | reflexivity].
  - split.
    + intros E. destruct (quote_char_shape c) as [P | (x & rest & Q)].
      * rewrite (quote_char_plain c P) in E. simpl in E. injection E as E'.
        intros d [<- | Hd]; [exact P | exact (proj1 IH E' d Hd)].
      * exfalso. rewrite Q in E. simpl in E. injection E as Ec E'.
        apply (f_equal String.length) in E'. simpl in E'.
        rewrite length_append in E'. pose proof (quote_body_length s). lia.
    + intros H. rewrite (quote_char_plain c) by (apply H; now left).
      simpl. f_equal. apply IH. intros d Hd. apply H. now right.
Qed.

Lemma quote_char_no_control (c d : ascii) :
  In d (Rules.chars (Js.quote_char c)) -> 32 <= Js.code d.
Proof.
  assert (B : forallb (fun x => 32 <=? Js.code x)
                (Rules.chars (Js.quote_char c)) = true)
    by (each_char c; vm_compute; reflexivity).
  intros H. rewrite forallb_forall in B. apply Nat.leb_le. now apply B.
Qed.

Lemma quote_body_no_control (s : string) (d : ascii) :
  In d (Rules.chars (Js.quote_body s)) -> 32 <= Js.code d.
Proof.
  induction s as [| c s IH]; simpl; [contradiction |].
  rewrite chars_append, in_app_iff. intros [H | H].
  - exact (quote_char_no_control c d H).
  - exact (IH H).
Qed.

(** X2.  The escaped body holds no control character: no code unit below 32,
    so no line feed, carriage return or tab; a double-quoted scalar stays on
    one line. *)
Theorem escapeString_no_control (s : string) (d : ascii) :
  In d (Rules.chars (escapeString s)) -> 32 <= Js.code d.
Proof.
  rewrite escapeString_body. apply quote_body_no_control.
Qed.

Lemma escapeString_no_control_witness :
  In "n"%char (Rules.chars (escapeString ("a" ++ Js.NL))) /\
  32 <= Js.code "n"%char.
Proof.
  assert (H : In "n"%char (Rules.chars (escapeString ("a" ++ Js.NL))))
    by (vm_compute; tauto).
  split; [exact H |].
  exact (escapeString_no_control ("a" ++ Js.NL) "n"%char H).
Defined.

Lemma unquote_first_quote_char (c : ascii) (rest : string) :
  Escape.unquote_first (Js.quote_char c ++ rest) = Some (c, rest).
Proof. each_char c; reflexivity. Qed.

Lemma quote_body_injective (a : string) :
  forall b, Js.quote_body a = Js.quote_body b -> a = b.
Proof.
  induction a as [| x a IH]; intros [| y b] E; simpl in E.
  - reflexivity.
  - apply (f_equal String.length) in E. simpl in E.
    rewrite length_append in E. pose proof (quote_char_length y). lia.
  - apply (f_equal String.length) in E. simpl in E.
    rewrite length_append in E. pose proof (quote_char_length x). lia.
  - apply (f_equal Escape.unquote_first) in E.
    rewrite !unquote_first_quote_char in E. inversion E as [[Ec Er]].
    f_equal. now apply IH.
Qed.

(** X3.  Escaping loses nothing: two strings with the same escaped body are
    the same string. *)
Theorem escapeString_injective (a b : string) :
  escapeString a = escapeString b -> a = b.
Proof.
  rewrite !escapeString_body. apply quote_body_injective.
Qed.

Lemma escapeString_injective_witness :
  escapeString "a\b" = escapeString "a\b" /\ "a\b" = "a\b".
Proof.
  split; [reflexivity |].
  exact (escapeString_injective "a\b" "a\b" eq_refl).
Defined.

(** The escaped body of a concatenation is the concatenation of the escaped
    bodies. *)
Lemma escapeString_append (a b : string) :
  escapeString (a ++ b) = escapeString a ++ escapeString b.
Proof. rewrite !escapeString_body. apply quote_body_append. Qed.

(* ================================================================== *)
(** ** Scalars and blocks *)
(* ================================================================== *)

Lemma contains_char_In (s : string) (c : ascii) :
  Block.contains s (String c EmptyString) <-> In c (Rules.chars s).
Proof.
  unfold Block.contains. split.
  - intros (b & a & ->). rewrite chars_append. apply in_or_app. right.
    simpl. now left.
  - induction s as [| x s IH]; simpl; [contradiction |].
    intros [-> | H].
    + now exists EmptyString, s.
    + destruct (IH H) as (b & a & ->). now exists (String x b), a.
Qed.

Lemma quoted_not_block (s : string) :
  ValueEmitter.is_block (Block.quoted s) = false.
Proof.
  unfold ValueEmitter.is_block. apply orb_false_iff. split; [| reflexivity].
  destruct (Js.includes (Block.quoted s) Js.NL) eqn:E; [| reflexivity].
  exfalso. apply includes_iff in E.
  apply (contains_char_In _ Js.LF) in E.
  unfold Block.quoted in E. rewrite !chars_append in E.
  apply in_app_or in E. destruct E as [E | E].
  - simpl in E. destruct E as [E | []]. discriminate E.
  - apply in_app_or in E. destruct E as [E | E].
    + rewrite escapeString_body in E. apply quote_body_no_control in E.
      vm_compute in E. lia.
    + simpl in E. destruct E as [E | []]. discriminate E.
Qed.

Lemma plain_not_block (s : string) :
  Js.includes s Js.NL = false -> needsQuotes s = false ->
  ValueEmitter.is_block s = false.
Proof.
  intros Hnl Hq. unfold ValueEmitter.is_block. rewrite Hnl. simpl.
  destruct s as [| c s]; [reflexivity |].
  unfold needsQuotes in Hq.
  do 3 (apply orb_false_iff in Hq; destruct Hq as [Hq _]).
  unfold starts_with_indicator in Hq. apply orb_false_iff in Hq.
  destruct Hq as [Hs _].
  destruct (Js.startsWith (String c s) " ") eqn:P; [| reflexivity].
  unfold Js.startsWith in P. apply prefix_iff in P. destruct P as [a P].
  injection P as -> _. vm_compute in Hs. discriminate Hs.
Qed.

Lemma block_text_is_block (marker content : string) :
  ValueEmitter.is_block (marker ++ Js.NL ++ content) = true.
Proof.
  unfold ValueEmitter.is_block. now rewrite includes_append.
Qed.

Lemma block_value_dec (s : string) :
  Block.is_block_value s <->
  Js.includes s Js.NL || Js.includes s ": " = true.
Proof.
  unfold Block.is_block_value. now rewrite orb_true_iff, !includes_iff.
Qed.

(** A text of the string formatter that its parent takes for a block comes
    from a string with a line feed or a colon-space. *)
Lemma block_text_block_value (s : string) :
  (ValueEmitter.is_block (YamlConverter.formatString s) = true
     -> Block.is_block_value s) /\
  (ValueEmitter.is_block (ConverterCopy.formatString s) = true
     -> Block.is_block_value s) /\
  (ValueEmitter.is_block (Json2Yaml.formatString s) = true
     -> Block.is_block_value s).
Proof.
  rewrite block_value_dec.
  unfold YamlConverter.formatString, ConverterCopy.formatString,
    Json2Yaml.formatString.
  destruct (Js.includes s Js.NL || Js.includes s ": ") eqn:B; cbv zeta;
    [tauto |].
  apply orb_false_iff in B. destruct B as [Hnl _].
  assert (Q : ValueEmitter.is_block (Js.DQ ++ escapeString s ++ Js.DQ) = false)
    by apply quoted_not_block.
  repeat split; intros H; exfalso;
    repeat match type of H with
           | context [if ?b then _ else _] => destruct b eqn:?
           end;
    try congruence.
  + apply orb_false_iff in Heqb. destruct Heqb as [Hq _].
    rewrite (plain_not_block s Hnl Hq) in H. discriminate.
  + repeat (apply orb_false_iff in Heqb; destruct Heqb as [Heqb ?]).
    rewrite (plain_not_block s Hnl) in H by assumption. discriminate.
  + repeat (apply orb_false_iff in Heqb; destruct Heqb as [Heqb ?]).
    rewrite (plain_not_block s Hnl) in H by assumption. discriminate.
Qed.

(** X4.  In each of the three copies a string value is handed to
    indentation reflow by its parent (its text has a line feed or begins
    with a space) exactly when it has a line feed or a colon followed by a
    space; every other string stays on the line of its key or dash. *)
Theorem formatString_block_iff (s : string) :
  (ValueEmitter.is_block (YamlConverter.formatString s) = true
     <-> Block.is_block_value s) /\
  (ValueEmitter.is_block (ConverterCopy.formatString s) = true
     <-> Block.is_block_value s) /\
  (ValueEmitter.is_block (Json2Yaml.formatString s) = true
     <-> Block.is_block_value s).
Proof.
  destruct (block_text_block_value s) as (A & B & C).
  split; [| split]; (split; [assumption |]); intros Hb.
  - unfold YamlConverter.formatString. rewrite (block_condition s Hb).
    cbv zeta. apply (block_text_is_block "|").
  - unfold ConverterCopy.formatString. rewrite (block_condition s Hb).
    cbv zeta. rewrite block_marker_assoc. apply block_text_is_block.
  - unfold Json2Yaml.formatString. rewrite (block_condition s Hb).
    cbv zeta. rewrite block_marker_assoc. apply block_text_is_block.
Qed.

(* ------------------------------------------------------------------ *)
(** *** Keys and values *)

Section KeyValue.

Variable JSON_parse : string -> exn + jsvalue.
Variable Number_toString : PrimFloat.float -> string.
Variable formatString : string -> string.
Variable formatMultilineYaml : string -> string -> string -> list string.

Local Abbreviation emit :=
  (ValueEmitter.valueToYaml_fuel JSON_parse Number_toString
     formatString formatMultilineYaml).
Local Abbreviation valueToYaml :=
  (ValueEmitter.valueToYaml JSON_parse Number_toString
     formatString formatMultilineYaml).

Variable s : string.

(** [JSON.parse] throws on the string or returns a string: the emitter does
    not unwrap it. *)
Hypothesis stays_string :
  forall parsed, JSON_parse s = inr parsed -> is_string parsed = true.




End KeyValue.





Lemma split_last_empty (s : string) :
  forall lines, Js.split_lines s = (lines ++ [EmptyString])%list ->
                s = EmptyString \/ Block.ends_with_newline s.
Proof.
  unfold Block.ends_with_newline.
  induction s as [| c s IH]; intros lines E; [now left |]. right.
  simpl in E. destruct (Ascii.eqb c Js.LF) eqn:Ec.
  - apply Ascii.eqb_eq in Ec. subst c.
    destruct lines as [| x lines]; simpl in E.
    + injection E as E. now apply split_lines_nonempty in E.
    + injection E as _ E. destruct (IH _ E) as [-> | [t ->]].
      * now exists EmptyString.
      * now exists (String Js.LF t).
  - pose proof (split_lines_nonempty s) as Hne.
    destruct (Js.split_lines s) as [| h tl] eqn:Es; [congruence |].
    destruct lines as [| x lines]; simpl in E; [discriminate E |].
    injection E as _ E.
    destruct (IH (h :: lines)) as [-> | [t ->]].
    + simpl. now rewrite E.
    + simpl in Es. injection Es as _ Es. subst tl.
      destruct lines; discriminate E.
    + now exists (String c t).
Qed.

Lemma last_is_split_lines (s : string) :
  s <> EmptyString -> ~ Block.ends_with_newline s ->
  Js.last_is (Js.split_lines s) EmptyString = false.
Proof.
  intros Hne Hnl.
  destruct (Js.last_is (Js.split_lines s) EmptyString) eqn:L; [| reflexivity].
  exfalso. pose proof (split_lines_nonempty s) as Hs.
  destruct (exists_last Hs) as (lines & x & E). rewrite E in L.
  rewrite last_is_snoc in L. apply String.eqb_eq in L. subst x.
  destruct (split_last_empty s lines E); tauto.
Qed.

Lemma block_value_nonempty (s : string) :
  Block.is_block_value s -> s <> EmptyString.
Proof.
  intros [(b & a & E) | (b & a & E)] ->; destruct b; discriminate E.
Qed.

Lemma endsWith_false (s : string) :
  ~ Block.ends_with_newline s -> Js.endsWith s Js.NL = false.
Proof.
  intros H. destruct (Js.endsWith s Js.NL) eqn:E; [| reflexivity].
  elim H. now apply endsWith_inv.
Qed.

(** [src/yamlConverter.ts]: a block literal is the bare marker and the
    string as it is. *)
Lemma yamlConverter_formatString_block (s : string) :
  Block.is_block_value s ->
  YamlConverter.formatString s = "|" ++ Js.NL ++ s.
Proof.
  intros Hb. unfold YamlConverter.formatString.
  rewrite (block_condition s Hb). cbv zeta.
  assert (P : YamlConverter.pop_empty_lines (length (Js.split_lines s))
                (Js.split_lines s) (Js.endsWith s Js.NL) = Js.split_lines s).
  { destruct (Js.endsWith s Js.NL) eqn:E; [apply pop_empty_lines_keeps |].
    destruct (length (Js.split_lines s)); [reflexivity |].
    cbn [YamlConverter.pop_empty_lines].
    rewrite last_is_split_lines;
      [now rewrite andb_false_r | now apply block_value_nonempty |].
    intros H. apply endsWith_iff in H. congruence. }
  now rewrite P, join_split_lines.
Qed.

(** The copy after [src/extension.ts]: a string that does not end with a
    line feed stands as it is under the marker [|-]. *)
Lemma copy_formatString_strip (s : string) :
  Block.is_block_value s -> ~ Block.ends_with_newline s ->
  ConverterCopy.formatString s = "|-" ++ Js.NL ++ s.
Proof.
  intros Hb Hnl. unfold ConverterCopy.formatString.
  rewrite (block_condition s Hb). cbv zeta.
  rewrite (endsWith_false s Hnl).
  rewrite last_is_split_lines by (auto using block_value_nonempty).
  now rewrite andb_false_r, join_split_lines.
Qed.

Lemma endsWith_two_newlines (t : string) :
  Js.endsWith (t ++ Js.NL) (Js.NL ++ Js.NL) = Js.endsWith t Js.NL.
Proof.
  destruct (Js.endsWith t Js.NL) eqn:E.
  - apply endsWith_inv in E. destruct E as [u ->].
    rewrite append_assoc. apply endsWith_append.
  - destruct (Js.endsWith (t ++ Js.NL) (Js.NL ++ Js.NL)) eqn:F; [| reflexivity].
    apply endsWith_inv in F. destruct F as [u F].
    rewrite <- append_assoc in F. apply append_inv_tail in F. subst t.
    now rewrite endsWith_append in E.
Qed.

(** The copy after [src/extension.ts]: a string that ends with a line feed
    stands without it under [|], or under [|+] when a second line feed
    precedes. *)
Lemma copy_formatString_keep (t : string) :
  ConverterCopy.formatString (t ++ Js.NL)
  = (if Js.endsWith t Js.NL then "|+" else "|") ++ Js.NL ++ t.
Proof.
  unfold ConverterCopy.formatString.
  rewrite includes_trailing_NL. simpl orb. cbv iota zeta.
  rewrite split_lines_append_NL, drop_split_artifact, join_split_lines.
  rewrite endsWith_append, endsWith_two_newlines.
  now destruct (Js.endsWith t Js.NL).
Qed.

(* ------------------------------------------------------------------ *)
(** *** The formatter loses nothing *)

(** The two forms of a scalar that is no block literal. *)
Lemma yamlConverter_formatString_scalar (s : string) :
  ~ Block.is_block_value s ->
  YamlConverter.formatString s = Block.quoted s \/
  (YamlConverter.formatString s = s /\ escapeString s = s /\
   needsQuotes s = false).
Proof.
  intros Hb. rewrite block_value_dec in Hb. apply not_true_is_false in Hb.
  unfold YamlConverter.formatString. rewrite Hb. cbv zeta.
  destruct (needsQuotes s) eqn:Q; [now left |].
  destruct (String.eqb_spec (escapeString s) s) as [E | E]; [now right |].
  now left.
Qed.

Lemma copy_formatString_scalar (s : string) :
  ~ Block.is_block_value s ->
  ConverterCopy.formatString s = Block.quoted s \/
  (ConverterCopy.formatString s = s /\ escapeString s = s /\
   needsQuotes s = false).
Proof.
  intros Hb. rewrite block_value_dec in Hb. apply not_true_is_false in Hb.
  unfold ConverterCopy.formatString. rewrite Hb. cbv zeta.
  destruct (String.eqb s EmptyString); [now left |].
  destruct (needsQuotes s) eqn:Q; [now left |].
  destruct (String.eqb_spec (escapeString s) s) as [E | E]; [now right |].
  now left.
Qed.

Lemma unescaped_head (s : string) :
  escapeString s = s -> String.get 0 s <> Some Js.DQUOTE.
Proof.
  intros E H. destruct s as [| c s]; [discriminate H |].
  simpl in H. injection H as ->.
  rewrite escapeString_body in E.
  apply (proj1 (quote_body_fixed_iff _)) with (c := Js.DQUOTE) in E;
    [| now left].
  destruct E as (_ & E & _). now apply E.
Qed.

Lemma unflagged_head (s : string) :
  needsQuotes s = false -> String.get 0 s <> Some "|"%char.
Proof.
  intros Q H. apply needsQuotes_false_head in Q.
  destruct s as [| c s]; [discriminate H |].
  simpl in *. injection H as ->. now apply Q.
Qed.

Lemma scalar_forms_injective (fa fb a b : string) :
  fa = Block.quoted a \/ (fa = a /\ escapeString a = a /\ needsQuotes a = false) ->
  fb = Block.quoted b \/ (fb = b /\ escapeString b = b /\ needsQuotes b = false) ->
  fa = fb -> a = b.
Proof.
  intros [-> | (-> & Ea & _)] [-> | (-> & Eb & _)] E.
  - unfold Block.quoted in E. injection E as E.
    apply append_inv_tail in E. rewrite !escapeString_body in E.
    now apply quote_body_injective.
  - exfalso. apply (unescaped_head b Eb). now rewrite <- E.
  - exfalso. apply (unescaped_head a Ea). now rewrite E.
  - exact E.
Qed.

Lemma scalar_form_head (f s : string) :
  f = Block.quoted s \/ (f = s /\ escapeString s = s /\ needsQuotes s = false) ->
  String.get 0 f <> Some "|"%char.
Proof.
  intros [-> | (-> & _ & Q)]; [discriminate | now apply unflagged_head].
Qed.

Lemma block_value_decide (s : string) :
  Block.is_block_value s \/ ~ Block.is_block_value s.
Proof.
  rewrite block_value_dec.
  destruct (Js.includes s Js.NL || Js.includes s ": "); [now left | now right].
Qed.

Lemma copy_formatString_block_head (s : string) :
  Block.is_block_value s ->
  String.get 0 (ConverterCopy.formatString s) = Some "|"%char.
Proof.
  intros Hb. unfold ConverterCopy.formatString.
  now rewrite (block_condition s Hb).
Qed.

Lemma ends_with_newline_decide (s : string) :
  Block.ends_with_newline s \/ ~ Block.ends_with_newline s.
Proof.
  destruct (Js.endsWith s Js.NL) eqn:E.
  - left. now apply endsWith_inv.
  - right. now apply not_ends_with_newline.
Qed.

(** X5.  The formatter of [src/yamlConverter.ts] and the formatter of the
    copy after [src/extension.ts] lose nothing: two different strings are
    never rendered as the same text. *)
Theorem formatString_injective :
  (forall a b,
      YamlConverter.formatString a = YamlConverter.formatString b -> a = b) /\
  (forall a b,
      ConverterCopy.formatString a = ConverterCopy.formatString b -> a = b).
Proof.
  split; intros a b E.
  - destruct (block_value_decide a) as [Ha | Ha],
             (block_value_decide b) as [Hb | Hb].
    + rewrite !yamlConverter_formatString_block in E by assumption.
      now injection E.
    + exfalso. apply (scalar_form_head _ b (yamlConverter_formatString_scalar b Hb)).
      rewrite <- E. now rewrite yamlConverter_formatString_block.
    + exfalso. apply (scalar_form_head _ a (yamlConverter_formatString_scalar a Ha)).
      rewrite E. now rewrite yamlConverter_formatString_block.
    + exact (scalar_forms_injective _ _ a b
               (yamlConverter_formatString_scalar a Ha)
               (yamlConverter_formatString_scalar b Hb) E).
  - destruct (block_value_decide a) as [Ha | Ha],
             (block_value_decide b) as [Hb | Hb].
    + destruct (ends_with_newline_decide a) as [[ta ->] | Na],
               (ends_with_newline_decide b) as [[tb ->] | Nb].
      * rewrite !copy_formatString_keep in E.
        destruct (Js.endsWith ta Js.NL), (Js.endsWith tb Js.NL);
          injection E as E; try discriminate E; congruence.
      * rewrite copy_formatString_keep, copy_formatString_strip in E
          by assumption.
        destruct (Js.endsWith ta Js.NL); discriminate E.
      * rewrite copy_formatString_keep, copy_formatString_strip in E
          by assumption.
        destruct (Js.endsWith tb Js.NL); discriminate E.
      * rewrite !copy_formatString_strip in E by assumption. now injection E.
    + exfalso. apply (scalar_form_head _ b (copy_formatString_scalar b Hb)).
      rewrite <- E. now apply copy_formatString_block_head.
    + exfalso. apply (scalar_form_head _ a (copy_formatString_scalar a Ha)).
      rewrite E. now apply copy_formatString_block_head.
    + exact (scalar_forms_injective _ _ a b
               (copy_formatString_scalar a Ha)
               (copy_formatString_scalar b Hb) E).
Qed.

Lemma formatString_injective_witness :
  ConverterCopy.formatString ("a" ++ Js.NL ++ "b")
    = ConverterCopy.formatString ("a" ++ Js.NL ++ "b") /\
  "a" ++ Js.NL ++ "b" = "a" ++ Js.NL ++ "b".
Proof.
  split; [reflexivity |].
  exact (proj2 formatString_injective _ _ eq_refl).
Defined.

(* ================================================================== *)
(** ** The emitter composes *)
(* ================================================================== *)

Lemma join_app (sep : string) (l1 l2 : list string) :
  l1 <> [] -> l2 <> [] ->
  Js.join sep (l1 ++ l2) = Js.join sep l1 ++ sep ++ Js.join sep l2.
Proof.
  intros H1 H2. induction l1 as [| x l1 IH]; [congruence |].
  destruct l1 as [| y l1].
  - destruct l2 as [| z l2]; [congruence | reflexivity].
  - cbn [app]. rewrite (join_cons2 sep x y (l1 ++ l2)), (join_cons2 sep x y l1).
    change (y :: l1 ++ l2)%list with ((y :: l1) ++ l2)%list.
    rewrite IH by discriminate. now rewrite !append_assoc.
Qed.

Section Composition.

Variable JSON_parse : string -> exn + jsvalue.
Variable Number_toString : PrimFloat.float -> string.
Variable formatString : string -> string.
Variable formatMultilineYaml : string -> string -> string -> list string.

Local Abbreviation emit :=
  (ValueEmitter.valueToYaml_fuel JSON_parse Number_toString
     formatString formatMultilineYaml).
Local Abbreviation valueToYaml :=
  (ValueEmitter.valueToYaml JSON_parse Number_toString
     formatString formatMultilineYaml).
Local Abbreviation array_items := (ValueEmitter.array_items formatMultilineYaml).
Local Abbreviation object_items := (ValueEmitter.object_items formatMultilineYaml).

(** Reflow returns at least the line of the prefix. *)
Hypothesis reflow_nonempty :
  forall yamlValue prefix indentStr,
    formatMultilineYaml yamlValue prefix indentStr <> [].

(** The loop of the array case appends to the array it is given. *)
Lemma array_items_accumulates (render : jsvalue -> option string)
    (indentStr : string) (value : list jsvalue) :
  forall items,
    array_items render indentStr value items
    = option_map (app items) (array_items render indentStr value []).
Proof.
  induction value as [| item rest IH]; intros items;
    cbn [ValueEmitter.array_items].
  - simpl. now rewrite app_nil_r.
  - destruct (render item) as [y |]; [| reflexivity].
    change (Js.push_all [] ?new) with new. unfold Js.push_all.
    rewrite IH. rewrite (IH (if ValueEmitter.is_block y then _ else _)).
    destruct (array_items render indentStr rest []); simpl; [| reflexivity].
    now rewrite app_assoc.
Qed.

Lemma array_items_nonempty (render : jsvalue -> option string)
    (indentStr : string) (value : list jsvalue) (lines : list string) :
  value <> [] ->
  array_items render indentStr value [] = Some lines -> lines <> [].
Proof.
  destruct value as [| item rest]; [congruence |]. intros _.
  cbn [ValueEmitter.array_items].
  destruct (render item) as [y |]; [| discriminate].
  change (Js.push_all [] ?new) with new. rewrite array_items_accumulates.
  destruct (array_items render indentStr rest []); [| discriminate].
  simpl. intros E. injection E as <-. intros H. apply app_eq_nil in H.
  destruct H as [H _]. revert H.
  destruct (ValueEmitter.is_block y); [apply reflow_nonempty | discriminate].
Qed.

Lemma array_items_app (render : jsvalue -> option string) (indentStr : string)
    (front back : list jsvalue) (items : list string) :
  array_items render indentStr (front ++ back) items
  = match array_items render indentStr front items with
    | Some lines => array_items render indentStr back lines
    | None => None
    end.
Proof.
  revert items. induction front as [| item rest IH]; intros items;
    cbn [ValueEmitter.array_items app]; [reflexivity |].
  destruct (render item); [apply IH | reflexivity].
Qed.

Lemma object_items_accumulates (render : jsvalue -> option string)
    (indentStr : string) (fields : list (string * jsvalue)) :
  forall items,
    object_items render indentStr fields items
    = option_map (app items) (object_items render indentStr fields []).
Proof.
  induction fields as [| [key v] rest IH]; intros items;
    cbn [ValueEmitter.object_items].
  - simpl. now rewrite app_nil_r.
  - destruct (render v) as [y |]; [| reflexivity].
    change (Js.push_all [] ?new) with new. unfold Js.push_all.
    rewrite IH. rewrite (IH (if ValueEmitter.is_block y then _ else _)).
    destruct (object_items render indentStr rest []); simpl; [| reflexivity].
    now rewrite app_assoc.
Qed.

Lemma object_items_nonempty (render : jsvalue -> option string)
    (indentStr : string) (fields : list (string * jsvalue))
    (lines : list string) :
  fields <> [] ->
  object_items render indentStr fields [] = Some lines -> lines <> [].
Proof.
  destruct fields as [| [key v] rest]; [congruence |]. intros _.
  cbn [ValueEmitter.object_items].
  destruct (render v) as [y |]; [| discriminate].
  change (Js.push_all [] ?new) with new. rewrite object_items_accumulates.
  destruct (object_items render indentStr rest []); [| discriminate].
  simpl. intros E. injection E as <-. intros H. apply app_eq_nil in H.
  destruct H as [H _]. revert H.
  destruct (ValueEmitter.is_block y); [apply reflow_nonempty | discriminate].
Qed.

Lemma object_items_app (render : jsvalue -> option string) (indentStr : string)
    (front back : list (string * jsvalue)) (items : list string) :
  object_items render indentStr (front ++ back) items
  = match object_items render indentStr front items with
    | Some lines => object_items render indentStr back lines
    | None => None
    end.
Proof.
  revert items. induction front as [| [key v] rest IH]; intros items;
    cbn [ValueEmitter.object_items app]; [reflexivity |].
  destruct (render v); [apply IH | reflexivity].
Qed.

(** What the emitter needs from [JSON.parse], as before. *)
Hypothesis JSON_parse_weight :
  forall s v, JSON_parse s = inr v -> is_string v = false ->
              weight v <= String.length s.

(** With enough fuel the emitter returns the text of [valueToYaml]. *)
Lemma valueToYaml_fuel_result (value : jsvalue) (indent fuel : nat) :
  weight value <= fuel ->
  emit fuel value indent = Some (valueToYaml value indent).
Proof.
  intros Hle.
  destruct (valueToYaml_fuel_enough JSON_parse Number_toString formatString
              formatMultilineYaml JSON_parse_weight
              (weight value) value indent (le_n _)) as [yaml Hy].
  unfold ValueEmitter.valueToYaml. rewrite Hy.
  exact (valueToYaml_fuel_mono _ _ _ _ _ _ _ _ Hy fuel Hle).
Qed.

Lemma weight_array_app (front back : list jsvalue) :
  weight (JArray front) <= weight (JArray (front ++ back)) /\
  weight (JArray back) <= weight (JArray (front ++ back)).
Proof.
  cbn [weight]. rewrite map_app, list_sum_app. lia.
Qed.

Lemma weight_object_app (front back : list (string * jsvalue)) :
  weight (JObject front) <= weight (JObject (front ++ back)) /\
  weight (JObject back) <= weight (JObject (front ++ back)).
Proof.
  cbn [weight]. rewrite map_app, list_sum_app. lia.
Qed.

(** The lines of a non-empty array, for any sufficient fuel. *)
Lemma array_lines (value : list jsvalue) (indent fuel : nat) :
  value <> [] -> weight (JArray value) <= S fuel ->
  exists lines,
    array_items (fun item => emit fuel item (indent + 2))
      (Js.repeat_space indent) value [] = Some lines /\
    valueToYaml (JArray value) indent = Js.join Js.NL lines.
Proof.
  intros Hne Hle.
  pose proof (valueToYaml_fuel_result (JArray value) indent (S fuel) Hle) as E.
  rewrite valueToYaml_fuel_step in E.
  destruct value as [| item rest]; [congruence |].
  destruct (array_items _ _ (item :: rest) []) as [lines |]; [| discriminate E].
  exists lines. split; [reflexivity | now injection E].
Qed.

Lemma object_lines (fields : list (string * jsvalue)) (indent fuel : nat) :
  fields <> [] -> weight (JObject fields) <= S fuel ->
  exists lines,
    object_items (fun v => emit fuel v (indent + 2))
      (Js.repeat_space indent) fields [] = Some lines /\
    valueToYaml (JObject fields) indent = Js.join Js.NL lines.
Proof.
  intros Hne Hle.
  pose proof (valueToYaml_fuel_result (JObject fields) indent (S fuel) Hle) as E.
  rewrite valueToYaml_fuel_step in E.
  destruct fields as [| field rest]; [congruence |].
  destruct (object_items _ _ (field :: rest) []) as [lines |]; [| discriminate E].
  exists lines. split; [reflexivity | now injection E].
Qed.

(** The text of an array is the text of a front part, a line feed, and the
    text of the rest. *)
Lemma array_text_app (front back : list jsvalue) (indent : nat) :
  front <> [] -> back <> [] ->
  valueToYaml (JArray (front ++ back)) indent
  = valueToYaml (JArray front) indent ++ Js.NL
      ++ valueToYaml (JArray back) indent.
Proof.
  intros Hf Hb.
  pose proof (weight_array_app front back) as [Wf Wb].
  remember (list_sum (map weight (front ++ back))) as fuel eqn:Ef.
  assert (W : weight (JArray (front ++ back)) = S fuel) by (now subst fuel).
  rewrite W in Wf, Wb.
  destruct (array_lines front indent fuel Hf Wf) as (lf & Ef' & ->).
  destruct (array_lines back indent fuel Hb Wb) as (lb & Eb' & ->).
  assert (Hne : (front ++ back)%list <> []).
  { intros H. apply app_eq_nil in H. tauto. }
  destruct (array_lines (front ++ back) indent fuel Hne) as (l & El & ->);
    [lia |].
  rewrite array_items_app, Ef', array_items_accumulates, Eb' in El.
  simpl in El. injection El as <-.
  apply join_app.
  - exact (array_items_nonempty _ _ _ _ Hf Ef').
  - exact (array_items_nonempty _ _ _ _ Hb Eb').
Qed.

Lemma object_text_app (front back : list (string * jsvalue)) (indent : nat) :
  front <> [] -> back <> [] ->
  valueToYaml (JObject (front ++ back)) indent
  = valueToYaml (JObject front) indent ++ Js.NL
      ++ valueToYaml (JObject back) indent.
Proof.
  intros Hf Hb.
  pose proof (weight_object_app front back) as [Wf Wb].
  remember (list_sum (map (fun kv => weight (snd kv)) (front ++ back)))
    as fuel eqn:Ef.
  assert (W : weight (JObject (front ++ back)) = S fuel) by (now subst fuel).
  rewrite W in Wf, Wb.
  destruct (object_lines front indent fuel Hf Wf) as (lf & Ef' & ->).
  destruct (object_lines back indent fuel Hb Wb) as (lb & Eb' & ->).
  assert (Hne : (front ++ back)%list <> []).
  { intros H. apply app_eq_nil in H. tauto. }
  destruct (object_lines (front ++ back) indent fuel Hne) as (l & El & ->);
    [lia |].
  rewrite object_items_app, Ef', object_items_accumulates, Eb' in El.
  simpl in El. injection El as <-.
  apply join_app.
  - exact (object_items_nonempty _ _ _ _ Hf Ef').
  - exact (object_items_nonempty _ _ _ _ Hb Eb').
Qed.

End Composition.

Lemma yamlConverter_reflow_nonempty (yamlValue prefix indentStr : string) :
  YamlConverter.formatMultilineYaml yamlValue prefix indentStr <> [].
Proof.
  unfold YamlConverter.formatMultilineYaml. cbv zeta.
  destruct (String.eqb _ _); discriminate.
Qed.

Lemma copy_reflow_nonempty (yamlValue prefix indentStr : string) :
  ConverterCopy.formatMultilineYaml yamlValue prefix indentStr <> [].
Proof.
  unfold ConverterCopy.formatMultilineYaml. cbv zeta.
  destruct (is_block_marker _); discriminate.
Qed.

Lemma json2yaml_reflow_nonempty (yamlValue prefix indentStr : string) :
  Json2Yaml.formatMultilineYaml yamlValue prefix indentStr <> [].
Proof.
  unfold Json2Yaml.formatMultilineYaml. cbv zeta.
  destruct (is_block_marker _); discriminate.
Qed.

(** X6.  Arrays are rendered element by element, in order: the text of an
    array is the text of any non-empty front part, a line feed, and the text
    of the non-empty rest, at the same indent; no element changes the lines
    of another.  This holds in each of the three copies, [JSON.parse] being
    any function under which a text is at least as long as the weight of the
    non-string value it denotes. *)
Theorem array_text_composes
    (JSON_parse : string -> exn + jsvalue)
    (Number_toString : PrimFloat.float -> string) :
  (forall s v, JSON_parse s = inr v -> is_string v = false ->
               weight v <= String.length s) ->
  forall front back indent,
    front <> [] -> back <> [] ->
    YamlConverter.valueToYaml JSON_parse Number_toString
        (JArray (front ++ back)) indent
      = YamlConverter.valueToYaml JSON_parse Number_toString (JArray front) indent
          ++ Js.NL
          ++ YamlConverter.valueToYaml JSON_parse Number_toString (JArray back) indent
    /\
    ConverterCopy.valueToYaml JSON_parse Number_toString
        (JArray (front ++ back)) indent
      = ConverterCopy.valueToYaml JSON_parse Number_toString (JArray front) indent
          ++ Js.NL
          ++ ConverterCopy.valueToYaml JSON_parse Number_toString (JArray back) indent
    /\
    Json2Yaml.valueToYaml JSON_parse Number_toString
        (JArray (front ++ back)) indent
      = Json2Yaml.valueToYaml JSON_parse Number_toString (JArray front) indent
          ++ Js.NL
          ++ Json2Yaml.valueToYaml JSON_parse Number_toString (JArray back) indent.
Proof.
  intros Hw front back indent Hf Hb. repeat split.
  - exact (array_text_app _ _ _ _ yamlConverter_reflow_nonempty Hw _ _ _ Hf Hb).
  - exact (array_text_app _ _ _ _ copy_reflow_nonempty Hw _ _ _ Hf Hb).
  - exact (array_text_app _ _ _ _ json2yaml_reflow_nonempty Hw _ _ _ Hf Hb).
Qed.

(** An array of [null], a block literal and a nested sequence, cut after
    its first element. *)
Lemma array_text_composes_witness :
  [JNull] <> [] /\
  [JString "k: v"; JString "[]"] <> [] /\
  Json2Yaml.valueToYaml Demo.JSON_parse Demo.Number_toString
      (JArray ([JNull] ++ [JString "k: v"; JString "[]"])) 2
    = Json2Yaml.valueToYaml Demo.JSON_parse Demo.Number_toString (JArray [JNull]) 2
        ++ Js.NL
        ++ Json2Yaml.valueToYaml Demo.JSON_parse Demo.Number_toString
             (JArray [JString "k: v"; JString "[]"]) 2.
Proof.
  assert (Hf : [JNull] <> []) by discriminate.
  assert (Hb : [JString "k: v"; JString "[]"] <> []) by discriminate.
  split; [exact Hf |]. split; [exact Hb |].
  exact (proj2 (proj2 (array_text_composes Demo.JSON_parse Demo.Number_toString
                         demo_parse_weight _ _ 2 Hf Hb))).
Defined.

(** X7.  Objects are rendered key by key, in the order of the keys: the text
    of an object is the text of the object of any non-empty front part of
    its fields, a line feed, and the text of the object of the non-empty
    rest, at the same indent.  This holds in each of the three copies, under
    the same condition on [JSON.parse]. *)
Theorem object_text_composes
    (JSON_parse : string -> exn + jsvalue)
    (Number_toString : PrimFloat.float -> string) :
  (forall s v, JSON_parse s = inr v -> is_string v = false ->
               weight v <= String.length s) ->
  forall front back indent,
    front <> [] -> back <> [] ->
    YamlConverter.valueToYaml JSON_parse Number_toString
        (JObject (front ++ back)) indent
      = YamlConverter.valueToYaml JSON_parse Number_toString (JObject front) indent
          ++ Js.NL
          ++ YamlConverter.valueToYaml JSON_parse Number_toString (JObject back) indent
    /\
    ConverterCopy.valueToYaml JSON_parse Number_toString
        (JObject (front ++ back)) indent
      = ConverterCopy.valueToYaml JSON_parse Number_toString (JObject front) indent
          ++ Js.NL
          ++ ConverterCopy.valueToYaml JSON_parse Number_toString (JObject back) indent
    /\
    Json2Yaml.valueToYaml JSON_parse Number_toString
        (JObject (front ++ back)) indent
      = Json2Yaml.valueToYaml JSON_parse Number_toString (JObject front) indent
          ++ Js.NL
          ++ Json2Yaml.valueToYaml JSON_parse Number_toString (JObject back) indent.
Proof.
  intros Hw front back indent Hf Hb. repeat split.
  - exact (object_text_app _ _ _ _ yamlConverter_reflow_nonempty Hw _ _ _ Hf Hb).
  - exact (object_text_app _ _ _ _ copy_reflow_nonempty Hw _ _ _ Hf Hb).
  - exact (object_text_app _ _ _ _ json2yaml_reflow_nonempty Hw _ _ _ Hf Hb).
Qed.

Lemma object_text_composes_witness :
  [("a", JString "k: v")] <> [] /\
  [("true", JArray [JNull])] <> [] /\
  Json2Yaml.valueToYaml Demo.JSON_parse Demo.Number_toString
      (JObject ([("a", JString "k: v")] ++ [("true", JArray [JNull])])) 0
    = Json2Yaml.valueToYaml Demo.JSON_parse Demo.Number_toString
        (JObject [("a", JString "k: v")]) 0
        ++ Js.NL
        ++ Json2Yaml.valueToYaml Demo.JSON_parse Demo.Number_toString
             (JObject [("true", JArray [JNull])]) 0.
Proof.
  assert (Hf : [("a", JString "k: v")] <> []) by discriminate.
  assert (Hb : [("true", JArray [JNull])] <> []) by discriminate.
  split; [exact Hf |]. split; [exact Hb |].
  exact (proj2 (proj2 (object_text_composes Demo.JSON_parse Demo.Number_toString
                         demo_parse_weight _ _ 0 Hf Hb))).
Defined.

(* ================================================================== *)
(** ** Indentation of containers *)
(* ================================================================== *)

Lemma split_lines_app (a b : string) :
  Js.split_lines (a ++ Js.NL ++ b) = (Js.split_lines a ++ Js.split_lines b)%list.
Proof.
  induction a as [| c a IH]; [reflexivity |].
  cbn [append Js.split_lines]. rewrite IH.
  destruct (Ascii.eqb c Js.LF); [reflexivity |].
  pose proof (split_lines_nonempty a) as Hne.
  destruct (Js.split_lines a); [congruence | reflexivity].
Qed.

Lemma split_join_In (lines : list string) (line : string) :
  lines <> [] ->
  In line (Js.split_lines (Js.join Js.NL lines)) ->
  exists l, In l lines /\ In line (Js.split_lines l).
Proof.
  induction lines as [| x lines IH]; [congruence |]. intros _.
  destruct lines as [| y lines].
  - simpl. intros H. exists x. split; [now left | exact H].
  - rewrite join_cons2, split_lines_app, in_app_iff. intros [H | H].
    + exists x. split; [now left | exact H].
    + destruct (IH ltac:(discriminate) H) as (l & Hl & Hin).
      exists l. split; [now right | exact Hin].
Qed.

Lemma split_lines_single (s : string) :
  ~ In Js.LF (Rules.chars s) -> Js.split_lines s = [s].
Proof.
  induction s as [| c s IH]; intros H; [reflexivity |].
  simpl in *. destruct (Ascii.eqb_spec c Js.LF) as [-> | Hc]; [tauto |].
  rewrite IH by tauto. reflexivity.
Qed.

Lemma split_lines_no_LF (s line : string) :
  In line (Js.split_lines s) -> ~ In Js.LF (Rules.chars line).
Proof.
  revert line. induction s as [| c s IH]; intros line H.
  - simpl in H. destruct H as [<- | []]. simpl. tauto.
  - simpl in H. destruct (Ascii.eqb_spec c Js.LF) as [-> | Hc].
    + destruct H as [<- | H]; [simpl; tauto | now apply IH].
    + pose proof (split_lines_nonempty s) as Hne.
      destruct (Js.split_lines s) as [| l ls]; [congruence |].
      destruct H as [<- | H].
      * simpl. intros [E | E]; [congruence |].
        apply (IH l); [now left | exact E].
      * apply IH. now right.
Qed.

Lemma no_LF_includes (s : string) :
  Js.includes s Js.NL = false <-> ~ In Js.LF (Rules.chars s).
Proof.
  rewrite <- contains_char_In, <- includes_iff.
  change (String Js.LF EmptyString) with Js.NL.
  destruct (Js.includes s Js.NL); split; congruence || tauto.
Qed.

Lemma repeat_space_no_LF (n : nat) : ~ In Js.LF (Rules.chars (Js.repeat_space n)).
Proof.
  induction n as [| n IH]; simpl; [tauto |].
  intros [E | E]; [discriminate E | tauto].
Qed.

Lemma repeat_space_add (n m : nat) :
  Js.repeat_space (n + m) = Js.repeat_space n ++ Js.repeat_space m.
Proof. induction n; simpl; congruence. Qed.

(** A text without line feed that begins with the indent is indented. *)
Lemma indented_single (indent : nat) (rest : string) :
  ~ In Js.LF (Rules.chars rest) ->
  Layout.indented indent (Js.repeat_space indent ++ rest).
Proof.
  intros H line Hin. rewrite split_lines_single in Hin.
  - destruct Hin as [<- | []]. now exists rest.
  - rewrite chars_append, in_app_iff.
    pose proof (repeat_space_no_LF indent). tauto.
Qed.

Lemma keyStr_no_LF (key : string) :
  ~ Block.contains key Js.NL ->
  ~ In Js.LF (Rules.chars (ValueEmitter.keyStr key)).
Proof.
  intros H. unfold ValueEmitter.keyStr. destruct (needsQuotes key).
  - apply no_LF_includes. pose proof (quoted_not_block key) as Q.
    unfold ValueEmitter.is_block in Q. apply orb_false_iff in Q. tauto.
  - now rewrite <- contains_char_In.
Qed.

Lemma marker_line_In (s : string) : In (Block.marker_line s) (Js.split_lines s).
Proof.
  unfold Block.marker_line. pose proof (split_lines_nonempty s) as H.
  destruct (Js.split_lines s); [congruence | now left].
Qed.

Lemma tl_In (A : Type) (x : A) (l : list A) : In x (List.tl l) -> In x l.
Proof. destruct l; simpl; auto. Qed.

Lemma is_block_false_no_LF (y : string) :
  ValueEmitter.is_block y = false -> ~ In Js.LF (Rules.chars y).
Proof.
  unfold ValueEmitter.is_block. intros H. apply orb_false_iff in H.
  now apply no_LF_includes.
Qed.

Lemma no_LF_append (a b : string) :
  ~ In Js.LF (Rules.chars a) -> ~ In Js.LF (Rules.chars b) ->
  ~ In Js.LF (Rules.chars (a ++ b)).
Proof. rewrite chars_append, in_app_iff. tauto. Qed.

Lemma join_indented (indent : nat) (lines : list string) :
  lines <> [] -> Forall (Layout.indented indent) lines ->
  Layout.indented indent (Js.join Js.NL lines).
Proof.
  intros Hne Hall line Hin.
  destruct (split_join_In lines line Hne Hin) as (l & Hl & Hline).
  rewrite Forall_forall in Hall. exact (Hall l Hl line Hline).
Qed.

Section Indentation.

Variable JSON_parse : string -> exn + jsvalue.
Variable Number_toString : PrimFloat.float -> string.
Variable formatString : string -> string.
Variable formatMultilineYaml : string -> string -> string -> list string.
(** The test reflow makes on the first line of a rendered value. *)
Variable is_marker : string -> bool.

Local Abbreviation emit :=
  (ValueEmitter.valueToYaml_fuel JSON_parse Number_toString
     formatString formatMultilineYaml).
Local Abbreviation array_items := (ValueEmitter.array_items formatMultilineYaml).
Local Abbreviation object_items := (ValueEmitter.object_items formatMultilineYaml).
Local Abbreviation well_placed := (Layout.well_placed is_marker).

Hypothesis reflow_cases :
  forall yamlValue prefix indentStr,
    formatMultilineYaml yamlValue prefix indentStr =
    if is_marker (Block.marker_line yamlValue)
    then (indentStr ++ prefix ++ Block.marker_line yamlValue)
           :: map (fun line => indentStr ++ "  " ++ line)
                (List.tl (Js.split_lines yamlValue))
    else (indentStr ++ prefix) :: Js.split_lines yamlValue.

(** A string the parent reflows opens with a marker the reflow knows. *)
Hypothesis formatString_marker :
  forall s, ValueEmitter.is_block (formatString s) = true ->
            is_marker (Block.marker_line (formatString s)) = true.

(** The decimal text of a number has no line feed and no leading space. *)
Hypothesis number_inline :
  forall n, ValueEmitter.is_block (Number_toString n) = false.

Lemma reflow_indented (yamlValue prefix : string) (indent : nat) :
  ~ In Js.LF (Rules.chars prefix) ->
  well_placed (indent + 2) yamlValue ->
  ValueEmitter.is_block yamlValue = true ->
  Forall (Layout.indented indent)
    (formatMultilineYaml yamlValue prefix (Js.repeat_space indent)).
Proof.
  intros Hp Hw Hb. rewrite reflow_cases.
  destruct (is_marker (Block.marker_line yamlValue)) eqn:M.
  - constructor.
    + apply indented_single. apply no_LF_append; [exact Hp |].
      apply (split_lines_no_LF yamlValue). apply marker_line_In.
    + apply Forall_forall. intros l Hl. apply in_map_iff in Hl.
      destruct Hl as (line & <- & Hline). apply indented_single.
      apply no_LF_append; [simpl; intros [E | [E | []]]; discriminate E |].
      apply (split_lines_no_LF yamlValue). now apply tl_In.
  - destruct Hw as [Hw | [Hw | Hw]]; [congruence | congruence |].
    constructor; [now apply indented_single |].
    apply Forall_forall. intros l Hl.
    destruct (Hw l Hl) as [rest E].
    pose proof (split_lines_no_LF yamlValue l Hl) as Hno.
    rewrite repeat_space_add, append_assoc in E. subst l.
    apply indented_single.
    rewrite chars_append, in_app_iff in Hno. tauto.
Qed.

Lemma inline_indented (yamlValue prefix : string) (indent : nat) :
  ~ In Js.LF (Rules.chars prefix) ->
  ValueEmitter.is_block yamlValue = false ->
  Layout.indented indent (Js.repeat_space indent ++ prefix ++ yamlValue).
Proof.
  intros Hp Hb. apply indented_single.
  apply no_LF_append; [exact Hp | now apply is_block_false_no_LF].
Qed.

Lemma array_items_indented (render : jsvalue -> option string) (indent : nat)
    (value : list jsvalue) :
  (forall item y, In item value -> render item = Some y ->
                  well_placed (indent + 2) y) ->
  forall items lines,
    Forall (Layout.indented indent) items ->
    array_items render (Js.repeat_space indent) value items = Some lines ->
    Forall (Layout.indented indent) lines.
Proof.
  induction value as [| item rest IH]; intros Hr items lines Hitems E;
    cbn [ValueEmitter.array_items] in E.
  - now injection E as <-.
  - destruct (render item) as [y |] eqn:Ey; [| discriminate E].
    apply IH in E; [exact E | intros it y' Hin; apply Hr; now right |].
    unfold Js.push_all. apply Forall_app. split; [exact Hitems |].
    assert (Hd : ~ In Js.LF (Rules.chars "- "))
      by (simpl; intros [H | [H | []]]; discriminate H).
    destruct (ValueEmitter.is_block y) eqn:B.
    + apply reflow_indented; [exact Hd | | exact B].
      apply (Hr item y); [now left | exact Ey].
    + constructor; [| constructor]. now apply inline_indented.
Qed.

Lemma object_items_indented (render : jsvalue -> option string) (indent : nat)
    (fields : list (string * jsvalue)) :
  (forall key v y, In (key, v) fields -> render v = Some y ->
                   well_placed (indent + 2) y) ->
  Forall (fun field => ~ Block.contains (fst field) Js.NL) fields ->
  forall items lines,
    Forall (Layout.indented indent) items ->
    object_items render (Js.repeat_space indent) fields items = Some lines ->
    Forall (Layout.indented indent) lines.
Proof.
  induction fields as [| [key v] rest IH]; intros Hr Hk items lines Hitems E;
    cbn [ValueEmitter.object_items] in E.
  - now injection E as <-.
  - destruct (render v) as [y |] eqn:Ey; [| discriminate E].
    inversion Hk as [| ? ? Hkey Hrest]; subst. simpl in Hkey.
    apply IH in E;
      [exact E | intros k' v' y' Hin; apply (Hr k'); now right | exact Hrest |].
    unfold Js.push_all. apply Forall_app. split; [exact Hitems |].
    assert (Hd : ~ In Js.LF (Rules.chars (ValueEmitter.keyStr key ++ ": "))).
    { apply no_LF_append; [now apply keyStr_no_LF |].
      simpl. intros [H | [H | []]]; discriminate H. }
    destruct (ValueEmitter.is_block y) eqn:B.
    + apply reflow_indented; [exact Hd | | exact B].
      apply (Hr key v y); [now left | exact Ey].
    + constructor; [| constructor].
      rewrite <- (append_assoc (ValueEmitter.keyStr key)).
      now apply inline_indented.
Qed.

Lemma reflow_cases_nonempty (yamlValue prefix indentStr : string) :
  formatMultilineYaml yamlValue prefix indentStr <> [].
Proof.
  rewrite reflow_cases. destruct (is_marker _); discriminate.
Qed.

(** Every text the emitter returns is well placed at its indent, and the
    text of a non-empty container has every line behind the indent. *)
Lemma emit_well_placed (fuel : nat) :
  forall value indent yaml,
    Layout.plain_keys JSON_parse value ->
    emit fuel value indent = Some yaml ->
    well_placed indent yaml /\
    (Layout.is_container value -> Layout.indented indent yaml).
Proof.
  induction fuel as [| fuel IH]; intros value indent yaml Hk E;
    [discriminate E |].
  rewrite valueToYaml_fuel_step in E.
  assert (Scalar : forall y, ValueEmitter.is_block y = false ->
                             well_placed indent y) by (intros; now left).
  assert (Str : forall s, well_placed indent (formatString s)).
  { intros s. destruct (ValueEmitter.is_block (formatString s)) eqn:B;
      [right; left; now apply formatString_marker | now left]. }
  destruct value as [| | b | n | s | items | fields].
  - injection E as <-. split; [now apply Scalar | contradiction].
  - injection E as <-. split; [now apply Scalar | contradiction].
  - injection E as <-. split; [destruct b; now apply Scalar | contradiction].
  - injection E as <-. split; [| contradiction]. apply Scalar.
    unfold ValueEmitter.number_to_yaml.
    destruct (PrimFloat.is_nan n); [reflexivity |].
    destruct (negb (PrimFloat.is_finite n)); [| apply number_inline].
    now destruct (PrimFloat.ltb PrimFloat.zero n).
  - split; [| contradiction].
    destruct (JSON_parse s) as [e | parsed] eqn:P; [injection E as <-; apply Str |].
    destruct (is_string parsed) eqn:S; [injection E as <-; apply Str |].
    inversion Hk as [| | | | ? Hp | |]; subst.
    exact (proj1 (IH _ _ _ (Hp parsed P S) E)).
  - destruct items as [| item rest];
      [injection E as <-; split; [now apply Scalar | contradiction] |].
    destruct (array_items _ _ (item :: rest) []) as [lines |] eqn:L;
      [| discriminate E].
    injection E as <-.
    assert (I : Layout.indented indent (Js.join Js.NL lines)).
    { apply join_indented.
      - refine (array_items_nonempty formatMultilineYaml reflow_cases_nonempty
                  _ _ (item :: rest) lines _ L). discriminate.
      - refine (array_items_indented _ indent (item :: rest) _ [] lines
                  (Forall_nil _) L).
        intros it y Hin Hy. inversion Hk as [| | | | | ? Hall |]; subst.
        rewrite Forall_forall in Hall.
        exact (proj1 (IH _ _ _ (Hall it Hin) Hy)). }
    split; [right; right; exact I | intros _; exact I].
  - destruct fields as [| field rest];
      [injection E as <-; split; [now apply Scalar | contradiction] |].
    destruct (object_items _ _ (field :: rest) []) as [lines |] eqn:L;
      [| discriminate E].
    injection E as <-.
    inversion Hk as [| | | | | | ? Hall]; subst.
    assert (I : Layout.indented indent (Js.join Js.NL lines)).
    { apply join_indented.
      - refine (object_items_nonempty formatMultilineYaml reflow_cases_nonempty
                  _ _ (field :: rest) lines _ L). discriminate.
      - refine (object_items_indented _ indent (field :: rest) _ _ [] lines
                  (Forall_nil _) L).
        + intros k v y Hin Hy. rewrite Forall_forall in Hall.
          exact (proj1 (IH _ _ _ (proj2 (Hall (k, v) Hin)) Hy)).
        + eapply Forall_impl; [| exact Hall]. intros a Ha. exact (proj1 Ha). }
    split; [right; right; exact I | intros _; exact I].
Qed.

End Indentation.

Lemma yamlConverter_reflow_cases (yamlValue prefix indentStr : string) :
  YamlConverter.formatMultilineYaml yamlValue prefix indentStr =
  if String.eqb (Block.marker_line yamlValue) "|"
  then (indentStr ++ prefix ++ Block.marker_line yamlValue)
         :: map (fun line => indentStr ++ "  " ++ line)
              (List.tl (Js.split_lines yamlValue))
  else (indentStr ++ prefix) :: Js.split_lines yamlValue.
Proof.
  unfold YamlConverter.formatMultilineYaml, Block.marker_line. cbv zeta.
  destruct (String.eqb_spec (hd EmptyString (Js.split_lines yamlValue)) "|")
    as [-> | _]; reflexivity.
Qed.

(** X8.  Every line of the text of a non-empty array or object begins with
    the spaces of its indent, nested containers and block literals included,
    in each of the three copies.  Two conditions: no key, of the value or of
    a value one of its strings unwraps to, holds a line feed (an unquoted
    key is written as it is), and the decimal text of a number has no line
    feed and no leading space. *)
Theorem container_lines_indented
    (JSON_parse : string -> exn + jsvalue)
    (Number_toString : PrimFloat.float -> string) :
  (forall n, ValueEmitter.is_block (Number_toString n) = false) ->
  forall fuel value indent yaml,
    Layout.plain_keys JSON_parse value ->
    Layout.is_container value ->
    (YamlConverter.valueToYaml_fuel JSON_parse Number_toString fuel value indent
       = Some yaml -> Layout.indented indent yaml) /\
    (ConverterCopy.valueToYaml_fuel JSON_parse Number_toString fuel value indent
       = Some yaml -> Layout.indented indent yaml) /\
    (Json2Yaml.valueToYaml_fuel JSON_parse Number_toString fuel value indent
       = Some yaml -> Layout.indented indent yaml).
Proof.
  intros Hnum fuel value indent yaml Hk Hc. split; [| split]; intros E.
  - refine (proj2 (emit_well_placed JSON_parse Number_toString
                     YamlConverter.formatString YamlConverter.formatMultilineYaml
                     (fun line => String.eqb line "|")
                     yamlConverter_reflow_cases _ Hnum fuel value indent yaml Hk E)
                  Hc).
    intros s Hb. apply (proj1 (block_text_block_value s)) in Hb.
    rewrite (yamlConverter_formatString_marker s Hb). reflexivity.
  - refine (proj2 (emit_well_placed JSON_parse Number_toString
                     ConverterCopy.formatString ConverterCopy.formatMultilineYaml
                     is_block_marker
                     (fun _ _ _ => eq_refl) _ Hnum fuel value indent yaml Hk E)
                  Hc).
    intros s Hb. apply (proj1 (proj2 (block_text_block_value s))) in Hb.
    apply is_block_marker_spec. now apply copy_formatString_marker_line.
  - refine (proj2 (emit_well_placed JSON_parse Number_toString
                     Json2Yaml.formatString Json2Yaml.formatMultilineYaml
                     is_block_marker
                     (fun _ _ _ => eq_refl) _ Hnum fuel value indent yaml Hk E)
                  Hc).
    intros s Hb. apply (proj2 (proj2 (block_text_block_value s))) in Hb.
    apply is_block_marker_spec. now apply json2yaml_formatString_marker_line.
Qed.

Lemma demo_plain_keys :
  Layout.plain_keys Demo.JSON_parse
    (JObject [("a", JArray [JString "k: v"; JNull])]).
Proof.
  constructor. constructor; [| constructor]. split.
  - simpl. intros H. apply includes_iff in H. discriminate H.
  - constructor. constructor; [| constructor; [constructor | constructor]].
    constructor. intros parsed H. discriminate H.
Qed.

(** An object at indent 2 whose key holds a sequence of a block literal and
    [null]. *)
Lemma container_lines_indented_witness :
  (forall n, ValueEmitter.is_block (Demo.Number_toString n) = false) /\
  Json2Yaml.valueToYaml_fuel Demo.JSON_parse Demo.Number_toString 3
    (JObject [("a", JArray [JString "k: v"; JNull])]) 2
    = Some ("  a: " ++ Js.NL ++ "    - |-" ++ Js.NL ++ "      k: v" ++ Js.NL
              ++ "    - null") /\
  Layout.indented 2
    ("  a: " ++ Js.NL ++ "    - |-" ++ Js.NL ++ "      k: v" ++ Js.NL
       ++ "    - null").
Proof.
  assert (Hn : forall n, ValueEmitter.is_block (Demo.Number_toString n) = false)
    by reflexivity.
  split; [exact Hn |]. split; [reflexivity |].
  exact (proj2 (proj2 (container_lines_indented
                         Demo.JSON_parse Demo.Number_toString Hn 3
                         (JObject [("a", JArray [JString "k: v"; JNull])]) 2 _
                         demo_plain_keys I))
               eq_refl).
Defined.

(* ================================================================== *)
(** ** The end of the input of the record driver *)
(* ================================================================== *)

Lemma records_blank_last (lines : list string) (blank : string) :
  Js.trim blank = EmptyString ->
  forall n, Stream.records n (lines ++ [blank]) = Stream.records n lines.
Proof.
  intros Hb. induction lines as [| raw rest IH]; intros n; simpl.
  - now rewrite Hb.
  - rewrite IH. reflexivity.
Qed.

Lemma split_lines_snoc (s : string) (c : ascii) :
  c <> Js.LF ->
  exists init final,
    Js.split_lines s = (init ++ [final])%list /\
    Js.split_lines (s ++ String c EmptyString)
      = (init ++ [String.append final (String c EmptyString)])%list.
Proof.
  intros Hc. induction s as [| x s (init & final & E1 & E2)].
  - exists [], EmptyString. simpl.
    destruct (Ascii.eqb_spec c Js.LF); [contradiction | now split].
  - cbn [append Js.split_lines]. rewrite E1, E2.
    destruct (Ascii.eqb x Js.LF).
    + exists (EmptyString :: init), final. now split.
    + destruct init as [| h init]; simpl.
      * exists [], (String x final). now split.
      * exists (String x h :: init), final. now split.
Qed.

Section DriverEnd.

Variable JSON_parse : string -> exn + jsvalue.
Variable Number_toString : PrimFloat.float -> string.

Local Abbreviation convert :=
  (Extension.convertJsonlToYaml JSON_parse Number_toString).

Lemma convert_space_char (text : string) (c : ascii) :
  Js.is_space c = true ->
  convert (text ++ String c EmptyString) = convert text.
Proof.
  intros Hs. unfold Extension.convertJsonlToYaml, Extension.convertJsonlToYaml_with.
  f_equal. destruct (Ascii.eqb_spec c Js.LF) as [-> | Hc].
  - change (String Js.LF EmptyString) with Js.NL.
    rewrite split_lines_append_NL, !convert_loop_entries.
    now rewrite records_blank_last.
  - destruct (split_lines_snoc text c Hc) as (init & final & E1 & E2).
    rewrite E1, E2. apply convert_loop_trim. rewrite !map_app. cbn [map].
    rewrite trim_pad_right; [reflexivity |].
    apply all_space_cons. split; [exact Hs | intros d []].
Qed.

Lemma convert_trailing_space (w : string) :
  Stream.all_space w -> forall text, convert (text ++ w) = convert text.
Proof.
  induction w as [| c w IH]; intros Hw text.
  - now rewrite append_nil_r.
  - apply all_space_cons in Hw. destruct Hw as [Hc Hw].
    change (String c w) with (String c EmptyString ++ w).
    rewrite <- append_assoc, (IH Hw). now apply convert_space_char.
Qed.

End DriverEnd.

(** X10.  Whitespace at the end of the input, blank lines included, changes
    nothing: the driver returns the same text for an input and for the
    input followed by any run of whitespace, so a final line feed gives no
    extra entry. *)
Theorem convertJsonlToYaml_trailing_whitespace
    (JSON_parse : string -> exn + jsvalue)
    (Number_toString : PrimFloat.float -> string)
    (text trailing : string) :
  Stream.all_space trailing ->
  Extension.convertJsonlToYaml JSON_parse Number_toString (text ++ trailing)
  = Extension.convertJsonlToYaml JSON_parse Number_toString text.
Proof.
  intros H. now apply convert_trailing_space.
Qed.

Lemma demo_all_space :
  Stream.all_space (" " ++ Js.NL ++ Js.NL ++ "  " ++ Js.NL).
Proof.
  intros c H. apply is_space_whitespace. vm_compute in H.
  repeat (destruct H as [<- | H]; [reflexivity |]). contradiction.
Qed.

Lemma convertJsonlToYaml_trailing_whitespace_witness :
  Stream.all_space (" " ++ Js.NL ++ Js.NL ++ "  " ++ Js.NL) /\
  Extension.convertJsonlToYaml Demo.JSON_parse Demo.Number_toString
    (("null" ++ Js.NL ++ "oops") ++ " " ++ Js.NL ++ Js.NL ++ "  " ++ Js.NL)
  = Extension.convertJsonlToYaml Demo.JSON_parse Demo.Number_toString
      ("null" ++ Js.NL ++ "oops").
Proof.
  split; [exact demo_all_space |].
  exact (convertJsonlToYaml_trailing_whitespace
           Demo.JSON_parse Demo.Number_toString _ _ demo_all_space).
Defined.

(** X11.  An input of whitespace only, the empty input included, gives the
    empty text: no entry and no diagnostic. *)
Theorem convertJsonlToYaml_blank_input
    (JSON_parse : string -> exn + jsvalue)
    (Number_toString : PrimFloat.float -> string) (text : string) :
  Stream.all_space text ->
  Extension.convertJsonlToYaml JSON_parse Number_toString text = EmptyString.
Proof.
  intros H.
  exact (convert_trailing_space JSON_parse Number_toString text H EmptyString).
Qed.

Lemma convertJsonlToYaml_blank_input_witness :
  Stream.all_space (" " ++ Js.NL ++ Js.NL ++ "  " ++ Js.NL) /\
  Extension.convertJsonlToYaml Demo.JSON_parse Demo.Number_toString
    (" " ++ Js.NL ++ Js.NL ++ "  " ++ Js.NL) = EmptyString.
Proof.
  split; [exact demo_all_space |].
  exact (convertJsonlToYaml_blank_input
           Demo.JSON_parse Demo.Number_toString _ demo_all_space).
Defined.

(* ================================================================== *)
(** ** Every line is trimmed first *)
(* ================================================================== *)

Section DriverTrim.

Variable JSON_parse : string -> exn + jsvalue.
Variable Number_toString : PrimFloat.float -> string.

Local Abbreviation jsonToYaml :=
  (YamlConverter.jsonToYaml JSON_parse Number_toString).
Local Abbreviation render :=
  (YamlConverter.valueToYaml JSON_parse Number_toString).
Local Abbreviation convert :=
  (Extension.convertJsonlToYaml JSON_parse Number_toString).

(** What the loop pushes is computed from the trimmed lines alone. *)
Lemma convert_loop_trimmed (lines : list string) :
  forall i yamlLines,
    Extension.convert_loop jsonToYaml i lines yamlLines
    = (yamlLines
         ++ flat_map (Stream.trimmed_entries JSON_parse render)
              (Stream.numbered (S i) (map Js.trim lines)))%list.
Proof.
  induction lines as [| raw rest IH]; intros i yamlLines;
    cbn [Extension.convert_loop map Stream.numbered flat_map].
  - now rewrite app_nil_r.
  - unfold Stream.trimmed_entries at 1.
    destruct (String.eqb (Js.trim raw) EmptyString); [apply IH |].
    unfold YamlConverter.jsonToYaml, ValueEmitter.jsonToYaml.
    destruct (JSON_parse (Js.trim raw)) as [error | parsed];
      rewrite IH; unfold Js.push_all; rewrite <- app_assoc;
      rewrite ?Nat.add_1_r; reflexivity.
Qed.

Lemma convert_trimmed (text : string) :
  convert text
  = Js.join (Js.NL ++ Js.NL)
      (flat_map (Stream.trimmed_entries JSON_parse render)
         (Stream.numbered 1 (map Js.trim (Js.split_lines text)))).
Proof.
  unfold Extension.convertJsonlToYaml, Extension.convertJsonlToYaml_with.
  now rewrite convert_loop_trimmed.
Qed.

(** The output for one line with whitespace around a text. *)
Lemma convert_padded_line (before doc after : string) :
  Stream.all_space before -> Stream.all_space after ->
  ~ Block.contains (before ++ doc ++ after) Js.NL ->
  convert (before ++ doc ++ after)
  = Js.join (Js.NL ++ Js.NL)
      (Stream.trimmed_entries JSON_parse render (1, Js.trim doc)).
Proof.
  intros H1 H2 Hnl. rewrite convert_trimmed.
  rewrite split_lines_single by (now rewrite <- contains_char_In).
  cbn [map Stream.numbered flat_map]. rewrite app_nil_r.
  now rewrite trim_pad.
Qed.

End DriverTrim.

(** C10.  The driver trims every line before anything else.  Its output is
    computed from the trimmed lines alone: a line of which nothing is left
    gives no entry, a line whose trimmed text parses gives the rendered
    value, and any other line gives the two diagnostic lines, the second
    showing the trimmed text; the numbers are those of the lines of the
    input.  So two inputs whose lines agree after trimming give the same
    output; a line of whitespace only is skipped like an empty line;
    whitespace around a line changes nothing; a JSON document with
    whitespace around it is rendered, not reported; and the diagnostic of a
    line that does not parse shows the trimmed line. *)
Theorem convertJsonlToYaml_trims_lines
    (JSON_parse : string -> exn + jsvalue)
    (Number_toString : PrimFloat.float -> string) :
  let convert := Extension.convertJsonlToYaml JSON_parse Number_toString in
  let render := YamlConverter.valueToYaml JSON_parse Number_toString in
  let loop :=
    Extension.convert_loop (YamlConverter.jsonToYaml JSON_parse Number_toString) in
  (forall text,
      convert text
      = Js.join (Js.NL ++ Js.NL)
          (flat_map (Stream.trimmed_entries JSON_parse render)
             (Stream.numbered 1 (map Js.trim (Js.split_lines text))))) /\
  (forall i yamlLines, loop i [] yamlLines = yamlLines) /\
  (forall text text',
      map Js.trim (Js.split_lines text) = map Js.trim (Js.split_lines text') ->
      convert text = convert text') /\
  (forall i blank rest yamlLines,
      Stream.all_space blank ->
      loop i (blank :: rest) yamlLines = loop (S i) rest yamlLines) /\
  (forall i before raw after rest yamlLines,
      Stream.all_space before -> Stream.all_space after ->
      loop i ((before ++ raw ++ after) :: rest) yamlLines
      = loop i (raw :: rest) yamlLines) /\
  (forall i raw rest yamlLines parsed,
      Js.trim raw <> EmptyString ->
      JSON_parse (Js.trim raw) = inr parsed ->
      loop i (raw :: rest) yamlLines
      = loop (S i) rest (Js.push_all yamlLines [render parsed 0])) /\
  (forall i raw rest yamlLines error,
      Js.trim raw <> EmptyString ->
      JSON_parse (Js.trim raw) = inl error ->
      loop i (raw :: rest) yamlLines
      = loop (S i) rest
          (Js.push_all yamlLines
             [ "# Error converting line " ++ Js.decimal (i + 1)
                 ++ ": Error: Failed to parse JSON: " ++ exn_toString error;
               "# Original content: " ++ Js.trim raw ])) /\
  (forall above blank below,
      Stream.all_space blank -> ~ Block.contains blank Js.NL ->
      convert (above ++ Js.NL ++ blank ++ Js.NL ++ below)
      = convert (above ++ Js.NL ++ Js.NL ++ below)) /\
  (forall before doc after parsed,
      Stream.all_space before -> Stream.all_space after ->
      ~ Block.contains (before ++ doc ++ after) Js.NL ->
      Js.trim doc <> EmptyString ->
      JSON_parse (Js.trim doc) = inr parsed ->
      convert (before ++ doc ++ after) = render parsed 0) /\
  (forall before doc after error,
      Stream.all_space before -> Stream.all_space after ->
      ~ Block.contains (before ++ doc ++ after) Js.NL ->
      Js.trim doc <> EmptyString ->
      JSON_parse (Js.trim doc) = inl error ->
      convert (before ++ doc ++ after)
      = "# Error converting line 1: Error: Failed to parse JSON: "
          ++ exn_toString error ++ Js.NL ++ Js.NL
          ++ "# Original content: " ++ Js.trim doc).
Proof.
  cbv zeta.
  assert (Same : forall text text',
             map Js.trim (Js.split_lines text)
               = map Js.trim (Js.split_lines text') ->
             Extension.convertJsonlToYaml JSON_parse Number_toString text
             = Extension.convertJsonlToYaml JSON_parse Number_toString text').
  { intros text text' E. rewrite !convert_trimmed. now rewrite E. }
  split; [apply convert_trimmed |].
  split; [reflexivity |].
  split; [exact Same |].
  split; [| split; [| split; [| split; [| split; [| split]]]]].
  - intros i blank rest yamlLines H. cbn [Extension.convert_loop].
    now rewrite (trim_all_space blank H).
  - intros i before raw after rest yamlLines H1 H2.
    apply convert_loop_trim. cbn [map]. now rewrite trim_pad.
  - intros i raw rest yamlLines parsed Hne Hp. cbn [Extension.convert_loop].
    apply String.eqb_neq in Hne. rewrite Hne.
    unfold YamlConverter.jsonToYaml, ValueEmitter.jsonToYaml. rewrite Hp.
    reflexivity.
  - intros i raw rest yamlLines error Hne Hp. cbn [Extension.convert_loop].
    apply String.eqb_neq in Hne. rewrite Hne.
    unfold YamlConverter.jsonToYaml, ValueEmitter.jsonToYaml. rewrite Hp.
    reflexivity.
  - intros above blank below Hb Hnl. apply Same.
    rewrite (split_lines_app above (blank ++ Js.NL ++ below)).
    rewrite (split_lines_app above (Js.NL ++ below)).
    rewrite (split_lines_app blank below).
    rewrite (split_lines_single blank) by (now rewrite <- contains_char_In).
    change (Js.split_lines (Js.NL ++ below))
      with (EmptyString :: Js.split_lines below).
    rewrite !map_app. cbn [map app]. now rewrite (trim_all_space blank Hb).
  - intros before doc after parsed H1 H2 Hnl Hne Hp.
    rewrite convert_padded_line by assumption.
    unfold Stream.trimmed_entries.
    apply String.eqb_neq in Hne. now rewrite Hne, Hp.
  - intros before doc after error H1 H2 Hnl Hne Hp.
    rewrite convert_padded_line by assumption.
    unfold Stream.trimmed_entries.
    apply String.eqb_neq in Hne. rewrite Hne, Hp.
    rewrite join_cons2. cbn [Js.join]. now rewrite !append_assoc.
Qed.

Lemma demo_padding :
  Stream.all_space "  " /\ Stream.all_space " ".
Proof.
  split; intros c H; apply is_space_whitespace; vm_compute in H;
    repeat (destruct H as [<- | H]; [reflexivity |]); contradiction.
Qed.

(** A padded [null] and a padded text that is no JSON. *)
Lemma convertJsonlToYaml_trims_lines_witness :
  Stream.all_space "  " /\ Stream.all_space " " /\
  ~ Block.contains ("  " ++ "null" ++ " ") Js.NL /\
  ~ Block.contains (" " ++ "oops" ++ "  ") Js.NL /\
  Extension.convertJsonlToYaml Demo.JSON_parse Demo.Number_toString
    ("  " ++ "null" ++ " ") = "null" /\
  Extension.convertJsonlToYaml Demo.JSON_parse Demo.Number_toString
    (" " ++ "oops" ++ "  ")
  = "# Error converting line 1: Error: Failed to parse JSON: SyntaxError: Unexpected token in JSON"
      ++ Js.NL ++ Js.NL ++ "# Original content: oops".
Proof.
  destruct demo_padding as [W2 W1].
  assert (N1 : ~ Block.contains ("  " ++ "null" ++ " ") Js.NL)
    by (intros H; apply includes_iff in H; discriminate H).
  assert (N2 : ~ Block.contains (" " ++ "oops" ++ "  ") Js.NL)
    by (intros H; apply includes_iff in H; discriminate H).
  assert (T1 : Js.trim "null" <> EmptyString) by discriminate.
  assert (T2 : Js.trim "oops" <> EmptyString) by discriminate.
  split; [exact W2 |]. split; [exact W1 |].
  split; [exact N1 |]. split; [exact N2 |].
  destruct (convertJsonlToYaml_trims_lines Demo.JSON_parse Demo.Number_toString)
    as (_ & _ & _ & _ & _ & _ & _ & _ & Ok & Ko).
  split.
  - exact (Ok "  " "null" " " JNull W2 W1 N1 T1 eq_refl).
  - exact (Ko " " "oops" "  " Demo.syntax_error W1 W2 N2 T2 eq_refl).
Defined.

(* ================================================================== *)
(** ** Control characters in block literals, and where the copies agree *)
(* ================================================================== *)

Lemma replace_unsupported_char_cases (c : ascii) :
  (Layout.unsupported c /\ Json2Yaml.replace_unsupported_char c = " "%char) \/
  (~ Layout.unsupported c /\ Json2Yaml.replace_unsupported_char c = c).
Proof.
  unfold Layout.unsupported, Json2Yaml.replace_unsupported_char. cbv zeta.
  destruct (Nat.leb_spec (Js.code c) 8); [left; split; [lia | reflexivity] |].
  destruct (Nat.leb_spec 11 (Js.code c)), (Nat.leb_spec (Js.code c) 31);
    simpl; try (left; split; [lia | reflexivity]);
    destruct (Nat.eqb_spec (Js.code c) 127);
    try (left; split; [lia | reflexivity]); right; split; (lia || reflexivity).
Qed.

Lemma replace_unsupported_supported (line : string) (c : ascii) :
  In c (Rules.chars (Json2Yaml.replace_unsupported line)) ->
  ~ Layout.unsupported c.
Proof.
  induction line as [| x line IH]; simpl; [contradiction |].
  intros [<- | H]; [| exact (IH H)].
  destruct (replace_unsupported_char_cases x) as [[_ ->] | [Hx ->]];
    [| exact Hx].
  unfold Layout.unsupported. vm_compute. lia.
Qed.

Lemma replace_unsupported_id (s : string) :
  (forall c, In c (Rules.chars s) -> ~ Layout.unsupported c) ->
  Json2Yaml.replace_unsupported s = s.
Proof.
  induction s as [| x s IH]; intros H; [reflexivity |].
  simpl. rewrite IH by (intros c Hc; apply H; now right).
  destruct (replace_unsupported_char_cases x) as [[Hx _] | [_ ->]];
    [| reflexivity].
  elim (H x); [now left | exact Hx].
Qed.

Lemma chars_join (sep : string) (lines : list string) (c : ascii) :
  In c (Rules.chars (Js.join sep lines)) ->
  In c (Rules.chars sep) \/ exists line, In line lines /\ In c (Rules.chars line).
Proof.
  induction lines as [| x lines IH]; [contradiction |].
  destruct lines as [| y lines].
  - simpl. intros H. right. exists x. split; [now left | exact H].
  - rewrite join_cons2, !chars_append, !in_app_iff. intros [H | [H | H]].
    + right. exists x. split; [now left | exact H].
    + now left.
    + destruct (IH H) as [Hs | (line & Hl & Hc)]; [now left |].
      right. exists line. split; [now right | exact Hc].
Qed.

Lemma removelast_In (A : Type) (x : A) (l : list A) :
  In x (removelast l) -> In x l.
Proof.
  induction l as [| y l IH]; [contradiction |].
  destruct l as [| z l]; [contradiction |].
  intros [-> | H]; [now left | right; now apply IH].
Qed.

(** X12.  A block literal of [scripts/json2yaml.js] holds no control
    character a YAML block cannot hold: no code unit 0..8, 11..31 or 127
    is in the text it returns for a string with a line feed or a colon
    followed by a space. *)
Theorem json2yaml_block_no_unsupported (s : string) (c : ascii) :
  Block.is_block_value s ->
  In c (Rules.chars (Json2Yaml.formatString s)) ->
  ~ Layout.unsupported c.
Proof.
  intros Hb. unfold Json2Yaml.formatString. rewrite (block_condition s Hb).
  cbv zeta. rewrite !chars_append, !in_app_iff.
  assert (K : forall d, In d ["|"; "+"; "-"; Js.LF]%char -> ~ Layout.unsupported d).
  { intros d [<- | [<- | [<- | [<- | []]]]]; unfold Layout.unsupported;
      vm_compute; lia. }
  intros [H | [H | [H | H]]].
  - apply K. simpl in H. destruct H as [<- | []]. simpl. tauto.
  - apply K. destruct (Js.endsWith s Js.NL);
      [destruct (Js.endsWith s (Js.NL ++ Js.NL)) |]; simpl in H;
      try contradiction; destruct H as [<- | []]; simpl; tauto.
  - apply K. simpl in H. destruct H as [<- | []]. simpl. tauto.
  - apply chars_join in H. destruct H as [H | (line & Hl & Hc)].
    + apply K. simpl in H. destruct H as [<- | []]. simpl. tauto.
    + assert (Hin : In line (map Json2Yaml.replace_unsupported (Js.split_lines s))).
      { destruct ((0 <? length _) && Js.last_is _ EmptyString) in Hl;
          [now apply removelast_In | exact Hl]. }
      apply in_map_iff in Hin. destruct Hin as (raw & <- & _).
      now apply replace_unsupported_supported in Hc.
Qed.

Lemma json2yaml_block_no_unsupported_witness :
  Block.is_block_value (String "001" "a: b") /\
  In " "%char (Rules.chars (Json2Yaml.formatString (String "001" "a: b"))) /\
  ~ Layout.unsupported " "%char.
Proof.
  assert (Hb : Block.is_block_value (String "001" "a: b")).
  { right. now exists (String "001" "a"), "b". }
  assert (Hin : In " "%char
                  (Rules.chars (Json2Yaml.formatString (String "001" "a: b"))))
    by (vm_compute; tauto).
  split; [exact Hb |]. split; [exact Hin |].
  exact (json2yaml_block_no_unsupported _ _ Hb Hin).
Defined.

(** X13.  Where the three copies agree.  [scripts/json2yaml.js] and the copy
    after [src/extension.ts] format alike every string without an unsupported
    control character, and reflow alike every text;
    [src/yamlConverter.ts] formats like the copy after [src/extension.ts]
    every non-empty string without line feed and without colon-space. *)
Theorem formatter_copies_agree :
  (forall s,
      (forall c, In c (Rules.chars s) -> ~ Layout.unsupported c) ->
      Json2Yaml.formatString s = ConverterCopy.formatString s) /\
  (forall yamlValue prefix indentStr,
      Json2Yaml.formatMultilineYaml yamlValue prefix indentStr
      = ConverterCopy.formatMultilineYaml yamlValue prefix indentStr) /\
  (forall s,
      Block.single_line s -> s <> EmptyString ->
      YamlConverter.formatString s = ConverterCopy.formatString s).
Proof.
  split; [| split].
  - intros s H. unfold Json2Yaml.formatString, ConverterCopy.formatString.
    rewrite <- split_lines_replace_unsupported.
    now rewrite (replace_unsupported_id s H).
  - reflexivity.
  - intros s Hs Hne. apply single_line_includes in Hs. destruct Hs as [H1 H2].
    unfold YamlConverter.formatString, ConverterCopy.formatString.
    rewrite H1, H2. cbv zeta. simpl orb. cbv iota.
    apply String.eqb_neq in Hne. now rewrite Hne.
Qed.

Lemma formatter_copies_agree_witness :
  (forall c, In c (Rules.chars ("a" ++ Js.NL)) -> ~ Layout.unsupported c) /\
  Json2Yaml.formatString ("a" ++ Js.NL) = ConverterCopy.formatString ("a" ++ Js.NL) /\
  Block.single_line "a\b" /\ "a\b" <> EmptyString /\
  YamlConverter.formatString "a\b" = ConverterCopy.formatString "a\b".
Proof.
  assert (H1 : forall c, In c (Rules.chars ("a" ++ Js.NL)) ->
                         ~ Layout.unsupported c).
  { intros c [<- | [<- | []]]; unfold Layout.unsupported; vm_compute; lia. }
  assert (H2 : Block.single_line "a\b")
    by (apply single_line_includes; split; reflexivity).
  assert (H3 : "a\b" <> EmptyString) by discriminate.
  split; [exact H1 |].
  split; [exact (proj1 formatter_copies_agree _ H1) |].
  split; [exact H2 |]. split; [exact H3 |].
  exact (proj2 (proj2 formatter_copies_agree) _ H2 H3).
Defined.

(* ================================================================== *)
(** ** No empty text *)
(* ================================================================== *)

Lemma nonempty_by_length (s : string) : 0 < String.length s -> s <> EmptyString.
Proof. intros H ->. simpl in H. lia. Qed.

Section NonEmpty.

Variable JSON_parse : string -> exn + jsvalue.
Variable Number_toString : PrimFloat.float -> string.
Variable formatString : string -> string.
Variable formatMultilineYaml : string -> string -> string -> list string.
Variable is_marker : string -> bool.

Local Abbreviation emit :=
  (ValueEmitter.valueToYaml_fuel JSON_parse Number_toString
     formatString formatMultilineYaml).

Hypothesis reflow_cases :
  forall yamlValue prefix indentStr,
    formatMultilineYaml yamlValue prefix indentStr =
    if is_marker (Block.marker_line yamlValue)
    then (indentStr ++ prefix ++ Block.marker_line yamlValue)
           :: map (fun line => indentStr ++ "  " ++ line)
                (List.tl (Js.split_lines yamlValue))
    else (indentStr ++ prefix) :: Js.split_lines yamlValue.

Hypothesis formatString_nonempty : forall s, formatString s <> EmptyString.
Hypothesis number_nonempty : forall n, Number_toString n <> EmptyString.

(** The first of the lines of an item holds its prefix. *)
Lemma item_lines_head (yaml prefix indentStr : string) :
  exists before after others,
    (if ValueEmitter.is_block yaml
     then formatMultilineYaml yaml prefix indentStr
     else [indentStr ++ prefix ++ yaml])
    = (before ++ prefix ++ after) :: others.
Proof.
  destruct (ValueEmitter.is_block yaml); [| now do 3 eexists].
  rewrite reflow_cases. destruct (is_marker _); [now do 3 eexists |].
  exists indentStr, EmptyString. eexists. now rewrite append_nil_r.
Qed.

Lemma lines_text_nonempty (prefix before after : string)
    (others more : list string) :
  prefix <> EmptyString ->
  Js.join Js.NL (((before ++ prefix ++ after) :: others) ++ more) <> EmptyString.
Proof.
  intros Hp. rewrite <- app_comm_cons.
  destruct (join_head Js.NL (before ++ prefix ++ after) (others ++ more))
    as [rest ->].
  apply nonempty_by_length. rewrite !length_append.
  destruct prefix; [congruence | simpl; lia].
Qed.

Lemma emit_nonempty (fuel : nat) :
  forall value indent yaml,
    emit fuel value indent = Some yaml -> yaml <> EmptyString.
Proof.
  induction fuel as [| fuel IH]; intros value indent yaml E; [discriminate E |].
  rewrite valueToYaml_fuel_step in E.
  destruct value as [| | b | n | s | items | fields].
  - injection E as <-. discriminate.
  - injection E as <-. discriminate.
  - injection E as <-. destruct b; discriminate.
  - injection E as <-. unfold ValueEmitter.number_to_yaml.
    destruct (PrimFloat.is_nan n); [discriminate |].
    destruct (negb (PrimFloat.is_finite n)); [| apply number_nonempty].
    destruct (PrimFloat.ltb PrimFloat.zero n); discriminate.
  - destruct (JSON_parse s) as [e | parsed];
      [injection E as <-; apply formatString_nonempty |].
    destruct (is_string parsed);
      [injection E as <-; apply formatString_nonempty | exact (IH _ _ _ E)].
  - destruct items as [| item rest]; [injection E as <-; discriminate |].
    cbn [ValueEmitter.array_items] in E.
    destruct (emit fuel item (indent + 2)) as [y |]; [| discriminate E].
    change (Js.push_all [] ?new) with new in E.
    rewrite (array_items_accumulates formatMultilineYaml) in E.
    destruct (ValueEmitter.array_items _ _ _ rest []) as [more |];
      [| discriminate E].
    cbn [option_map] in E. injection E as <-.
    change (String "-" (String " " y)) with ("- " ++ y).
    destruct (item_lines_head y "- " (Js.repeat_space indent))
      as (before & after & others & ->).
    apply lines_text_nonempty. discriminate.
  - destruct fields as [| [key v] rest]; [injection E as <-; discriminate |].
    cbn [ValueEmitter.object_items] in E.
    destruct (emit fuel v (indent + 2)) as [y |]; [| discriminate E].
    change (Js.push_all [] ?new) with new in E.
    rewrite (object_items_accumulates formatMultilineYaml) in E.
    destruct (ValueEmitter.object_items _ _ _ rest []) as [more |];
      [| discriminate E].
    cbn [option_map] in E. injection E as <-.
    change (String ":" (String " " y)) with (": " ++ y).
    rewrite <- (append_assoc (ValueEmitter.keyStr key)).
    destruct (item_lines_head y (ValueEmitter.keyStr key ++ ": ")
                (Js.repeat_space indent))
      as (before & after & others & ->).
    apply lines_text_nonempty. destruct (ValueEmitter.keyStr key); discriminate.
Qed.

End NonEmpty.

Lemma copy_formatString_nonempty (s : string) :
  ConverterCopy.formatString s <> EmptyString.
Proof.
  unfold ConverterCopy.formatString.
  destruct (Js.includes s Js.NL || Js.includes s ": "); [discriminate |].
  cbv zeta. destruct (String.eqb_spec s EmptyString) as [-> | Hne];
    [discriminate |].
  simpl orb. destruct (needsQuotes s || _); [discriminate | exact Hne].
Qed.

Lemma json2yaml_formatString_nonempty (s : string) :
  Json2Yaml.formatString s <> EmptyString.
Proof.
  unfold Json2Yaml.formatString.
  destruct (Js.includes s Js.NL || Js.includes s ": "); [discriminate |].
  cbv zeta. destruct (String.eqb_spec s EmptyString) as [-> | Hne];
    [discriminate |].
  simpl orb. destruct (needsQuotes s || _); [discriminate | exact Hne].
Qed.

(** X9.  The emitter of the two newer copies never returns the empty text,
    so a key or a dash is never left without a value; the decimal text of a
    number is taken not to be empty. *)
Theorem valueToYaml_never_empty
    (JSON_parse : string -> exn + jsvalue)
    (Number_toString : PrimFloat.float -> string) :
  (forall n, Number_toString n <> EmptyString) ->
  forall fuel value indent yaml,
    (ConverterCopy.valueToYaml_fuel JSON_parse Number_toString fuel value indent
       = Some yaml -> yaml <> EmptyString) /\
    (Json2Yaml.valueToYaml_fuel JSON_parse Number_toString fuel value indent
       = Some yaml -> yaml <> EmptyString).
Proof.
  intros Hn fuel value indent yaml. split; intros E.
  - exact (emit_nonempty JSON_parse Number_toString ConverterCopy.formatString
             ConverterCopy.formatMultilineYaml is_block_marker
             (fun _ _ _ => eq_refl) copy_formatString_nonempty Hn
             fuel value indent yaml E).
  - exact (emit_nonempty JSON_parse Number_toString Json2Yaml.formatString
             Json2Yaml.formatMultilineYaml is_block_marker
             (fun _ _ _ => eq_refl) json2yaml_formatString_nonempty Hn
             fuel value indent yaml E).
Qed.

Lemma valueToYaml_never_empty_witness :
  (forall n, Demo.Number_toString n <> EmptyString) /\
  Json2Yaml.valueToYaml_fuel Demo.JSON_parse Demo.Number_toString 2
    (JObject [(EmptyString, JString EmptyString)]) 0
    = Some (": " ++ Js.DQ ++ Js.DQ) /\
  ": " ++ Js.DQ ++ Js.DQ <> EmptyString.
Proof.
  assert (Hn : forall n, Demo.Number_toString n <> EmptyString)
    by (intros n; discriminate).
  split; [exact Hn |]. split; [reflexivity |].
  exact (proj2 (valueToYaml_never_empty Demo.JSON_parse Demo.Number_toString Hn
                  2 (JObject [(EmptyString, JString EmptyString)]) 0 _)
               eq_refl).
Defined.

(* ================================================================== *)
(** ** Block literals, exactly *)
(* ================================================================== *)

(** X14.  The text of a block literal.  For a string with a line feed or a
    colon followed by a space, [src/yamlConverter.ts] returns the bare
    marker, a line feed and the string as it is.  The copy after
    [src/extension.ts] returns [|-], a line feed and the string when the
    string does not end with a line feed; when it does, the marker [|], or
    [|+] if a second line feed precedes, a line feed, and the string without
    its last line feed. *)
Theorem block_literal_text (s : string) :
  Block.is_block_value s ->
  YamlConverter.formatString s = "|" ++ Js.NL ++ s /\
  (~ Block.ends_with_newline s ->
     ConverterCopy.formatString s = "|-" ++ Js.NL ++ s) /\
  (forall t, s = t ++ Js.NL ->
     ConverterCopy.formatString s
     = (if Js.endsWith t Js.NL then "|+" else "|") ++ Js.NL ++ t).
Proof.
  intros Hb. split; [| split].
  - now apply yamlConverter_formatString_block.
  - now apply copy_formatString_strip.
  - intros t ->. apply copy_formatString_keep.
Qed.

Lemma block_literal_text_witness :
  Block.is_block_value ("a: b" ++ Js.NL ++ Js.NL) /\
  YamlConverter.formatString ("a: b" ++ Js.NL ++ Js.NL)
    = "|" ++ Js.NL ++ "a: b" ++ Js.NL ++ Js.NL /\
  ConverterCopy.formatString ("a: b" ++ Js.NL ++ Js.NL)
    = "|+" ++ Js.NL ++ "a: b" ++ Js.NL.
Proof.
  assert (Hb : Block.is_block_value ("a: b" ++ Js.NL ++ Js.NL)).
  { right. now exists "a", ("b" ++ Js.NL ++ Js.NL). }
  pose proof (block_literal_text _ Hb) as (Ha & _ & Hk).
  split; [exact Hb |]. split; [exact Ha |].
  exact (Hk ("a: b" ++ Js.NL) eq_refl).
Defined.

Lemma replace_unsupported_append (a b : string) :
  Json2Yaml.replace_unsupported (a ++ b)
  = Json2Yaml.replace_unsupported a ++ Json2Yaml.replace_unsupported b.
Proof. induction a; simpl; congruence. Qed.

Lemma replace_unsupported_contains (s sub : string) :
  Json2Yaml.replace_unsupported sub = sub ->
  Block.contains s sub ->
  Block.contains (Json2Yaml.replace_unsupported s) sub.
Proof.
  intros Hsub (b & a & ->). rewrite !replace_unsupported_append, Hsub.
  now do 2 eexists.
Qed.

Lemma replace_unsupported_eqb (s : string) :
  forall t, Json2Yaml.replace_unsupported t = t ->
            (forall c, In c (Rules.chars t) -> c = Js.LF) ->
            String.eqb (Json2Yaml.replace_unsupported s) t = String.eqb s t.
Proof.
  induction s as [| x s IH]; intros [| y t] Ht Hall; try reflexivity.
  simpl in Ht. injection Ht as _ Ht.
  assert (y = Js.LF) by (apply Hall; now left). subst y.
  cbn [Json2Yaml.replace_unsupported String.eqb].
  rewrite replace_unsupported_char_LF.
  destruct (Ascii.eqb x Js.LF); [| reflexivity].
  apply IH; [exact Ht | intros c Hc; apply Hall; now right].
Qed.

Lemma replace_unsupported_endsWith (s t : string) :
  Json2Yaml.replace_unsupported t = t ->
  (forall c, In c (Rules.chars t) -> c = Js.LF) ->
  Js.endsWith (Json2Yaml.replace_unsupported s) t = Js.endsWith s t.
Proof.
  intros Ht Hall. induction s as [| x s IH]; [reflexivity |].
  cbn [Js.endsWith Json2Yaml.replace_unsupported]. rewrite IH. f_equal.
  exact (replace_unsupported_eqb (String x s) t Ht Hall).
Qed.

Lemma replace_unsupported_block (s : string) :
  Block.is_block_value s ->
  Block.is_block_value (Json2Yaml.replace_unsupported s).
Proof.
  intros [H | H]; [left | right]; now apply replace_unsupported_contains.
Qed.

Lemma json2yaml_block_sanitised (s : string) :
  Block.is_block_value s ->
  Json2Yaml.formatString s
  = ConverterCopy.formatString (Json2Yaml.replace_unsupported s).
Proof.
  intros Hb. pose proof (replace_unsupported_block s Hb) as Hb'.
  unfold Json2Yaml.formatString, ConverterCopy.formatString.
  rewrite (block_condition _ Hb), (block_condition _ Hb'). cbv zeta.
  rewrite split_lines_replace_unsupported.
  rewrite !replace_unsupported_endsWith;
    [reflexivity | reflexivity | | reflexivity |].
  + intros c [<- | [<- | []]]; reflexivity.
  + intros c [<- | []]. reflexivity.
Qed.

Lemma json2yaml_scalar_copy (s : string) :
  ~ Block.is_block_value s ->
  Json2Yaml.formatString s = ConverterCopy.formatString s.
Proof.
  intros Hb. rewrite block_value_dec in Hb. apply not_true_is_false in Hb.
  unfold Json2Yaml.formatString, ConverterCopy.formatString.
  now rewrite Hb.
Qed.

(** X15.  [scripts/json2yaml.js] formats a string with a line feed or a
    colon followed by a space as the copy after [src/extension.ts] formats
    the string with its unsupported control characters replaced by spaces,
    and every other string as that copy formats the string itself. *)
Theorem json2yaml_formats_sanitised (s : string) :
  (Block.is_block_value s ->
     Json2Yaml.formatString s
     = ConverterCopy.formatString (Json2Yaml.replace_unsupported s)) /\
  (~ Block.is_block_value s ->
     Json2Yaml.formatString s = ConverterCopy.formatString s).
Proof.
  split; [apply json2yaml_block_sanitised | apply json2yaml_scalar_copy].
Qed.

Lemma json2yaml_formats_sanitised_witness :
  Block.is_block_value (String "001" "a: b") /\
  Json2Yaml.formatString (String "001" "a: b")
    = ConverterCopy.formatString (" a: b") /\
  ~ Block.is_block_value "a\b" /\
  Json2Yaml.formatString "a\b" = ConverterCopy.formatString "a\b".
Proof.
  assert (Hb : Block.is_block_value (String "001" "a: b")).
  { right. now exists (String "001" "a"), "b". }
  assert (Hn : ~ Block.is_block_value "a\b").
  { rewrite block_value_dec. discriminate. }
  split; [exact Hb |].
  split; [exact (proj1 (json2yaml_formats_sanitised _) Hb) |].
  split; [exact Hn |].
  exact (proj2 (json2yaml_formats_sanitised _) Hn).
Defined.

(* ================================================================== *)
(** ** One record *)
(* ================================================================== *)

(** X16.  On an input of one line the driver does what the single-document
    entry point does on the trimmed line: it returns the YAML text when
    [jsonToYaml] returns one, and the two diagnostic lines, a blank line
    between them, when [jsonToYaml] throws. *)
Theorem convertJsonlToYaml_one_record
    (JSON_parse : string -> exn + jsvalue)
    (Number_toString : PrimFloat.float -> string) (text : string) :
  ~ Block.contains text Js.NL ->
  Js.trim text <> EmptyString ->
  Extension.convertJsonlToYaml JSON_parse Number_toString text =
  match YamlConverter.jsonToYaml JSON_parse Number_toString (Js.trim text) with
  | inr yamlContent => yamlContent
  | inl error =>
      "# Error converting line 1: " ++ exn_toString error ++ Js.NL ++ Js.NL
        ++ "# Original content: " ++ Js.trim text
  end.
Proof.
  intros Hnl Hne.
  unfold Extension.convertJsonlToYaml, Extension.convertJsonlToYaml_with.
  rewrite split_lines_single by (now rewrite <- contains_char_In).
  cbn [Extension.convert_loop]. apply String.eqb_neq in Hne. rewrite Hne.
  destruct (YamlConverter.jsonToYaml JSON_parse Number_toString (Js.trim text));
    [| reflexivity].
  unfold Js.push_all. cbn [app]. rewrite join_cons2. cbn [Js.join].
  now rewrite !append_assoc.
Qed.

Lemma convertJsonlToYaml_one_record_witness :
  ~ Block.contains "  {} " Js.NL /\
  Js.trim "  {} " <> EmptyString /\
  Extension.convertJsonlToYaml Demo.JSON_parse Demo.Number_toString "  {} "
    = "{}".
Proof.
  assert (H1 : ~ Block.contains "  {} " Js.NL).
  { intros H. apply includes_iff in H. discriminate H. }
  assert (H2 : Js.trim "  {} " <> EmptyString) by discriminate.
  split; [exact H1 |]. split; [exact H2 |].
  exact (convertJsonlToYaml_one_record
           Demo.JSON_parse Demo.Number_toString "  {} " H1 H2).
Defined.

(* ================================================================== *)
(** ** What stays unquoted *)
(* ================================================================== *)

Lemma replace_unsupported_length (s : string) :
  String.length (Json2Yaml.replace_unsupported s) = String.length s.
Proof. induction s; simpl; congruence. Qed.

Lemma copy_block_longer (s : string) :
  Block.is_block_value s ->
  String.length s < String.length (ConverterCopy.formatString s).
Proof.
  intros Hb. destruct (ends_with_newline_decide s) as [[t ->] | N].
  - rewrite copy_formatString_keep.
    destruct (Js.endsWith t Js.NL); rewrite !length_append; simpl; lia.
  - rewrite copy_formatString_strip by assumption. simpl. lia.
Qed.

(** The text of a block literal is longer than the string. *)
Lemma block_text_longer (s : string) :
  Block.is_block_value s ->
  String.length s < String.length (YamlConverter.formatString s) /\
  String.length s < String.length (ConverterCopy.formatString s) /\
  String.length s < String.length (Json2Yaml.formatString s).
Proof.
  intros Hb. split; [| split].
  - rewrite yamlConverter_formatString_block by assumption. simpl. lia.
  - now apply copy_block_longer.
  - rewrite json2yaml_block_sanitised by assumption.
    rewrite <- (replace_unsupported_length s) at 1.
    apply copy_block_longer. now apply replace_unsupported_block.
Qed.

Lemma bare_form (f s : string) :
  f = Block.quoted s \/ (f = s /\ escapeString s = s /\ needsQuotes s = false) ->
  f = s -> escapeString s = s /\ needsQuotes s = false.
Proof.
  intros [-> | (_ & E & Q)] H; [| now split].
  symmetry in H. now apply quoted_differs in H.
Qed.

(** X1.  A string that escaping leaves as it is holds no code unit below
    32, no double quote and no backslash.  So does every string that one of
    the three formatters returns as it is, unquoted: such a string has
    neither line feed nor colon-space, is not flagged by the classifier, and
    is not changed by escaping. *)
Theorem escapeString_unchanged_plain (s : string) :
  (escapeString s = s ->
     forall c, In c (Rules.chars s) -> Escape.plain_char c) /\
  (YamlConverter.formatString s = s \/ ConverterCopy.formatString s = s \/
   Json2Yaml.formatString s = s ->
     ~ Block.is_block_value s /\ needsQuotes s = false /\
     escapeString s = s /\
     forall c, In c (Rules.chars s) -> Escape.plain_char c).
Proof.
  assert (P : escapeString s = s ->
              forall c, In c (Rules.chars s) -> Escape.plain_char c).
  { rewrite escapeString_body. apply quote_body_fixed_iff. }
  split; [exact P |]. intros H.
  assert (Hb : ~ Block.is_block_value s).
  { intros Hb. destruct (block_text_longer s Hb) as (A & B & C).
    destruct H as [H | [H | H]]; rewrite H in *; lia. }
  assert (E : escapeString s = s /\ needsQuotes s = false).
  { destruct H as [H | [H | H]].
    - exact (bare_form _ s (yamlConverter_formatString_scalar s Hb) H).
    - exact (bare_form _ s (copy_formatString_scalar s Hb) H).
    - rewrite json2yaml_scalar_copy in H by assumption.
      exact (bare_form _ s (copy_formatString_scalar s Hb) H). }
  destruct E as [E Q].
  split; [exact Hb |]. split; [exact Q |]. split; [exact E | exact (P E)].
Qed.

Lemma escapeString_unchanged_plain_witness :
  escapeString "a b" = "a b" /\
  Json2Yaml.formatString "a b" = "a b" /\
  needsQuotes "a b" = false /\
  forall c, In c (Rules.chars "a b") -> Escape.plain_char c.
Proof.
  split; [reflexivity |]. split; [reflexivity |].
  destruct (proj2 (escapeString_unchanged_plain "a b")
              (or_intror (or_intror eq_refl))) as (_ & Q & _ & P).
  split; [exact Q | exact P].
Defined.
